(** * seeing_stars_to_txt.py: the Seeing-Stars decade pages extraction

    A shallow embedding of [src/info/seeing_stars_to_txt.py] and the
    properties of its fetch, normalise, filter, format and write stages.

    Python [str] values are lists of Unicode code points, exceptions are
    an explicit result type, the regular expressions of the script are
    kept as the pattern strings of the source and compiled by a model of
    [re.compile]. *)

From Stdlib Require Import NArith List Bool String Ascii DecimalString Lia.
From Stdlib.Strings Require Import Byte.
From stdpp Require Import list.
Import ListNotations.

(* ===================================================================== *)
(** ** Python strings *)
(* ===================================================================== *)

(** A [str] is a sequence of code points; [len] is [length]. *)
Definition pystr := list N.

(** Decoding of the UTF-8 bytes of a literal of this file into code
    points, so that the literals of the script can be written as they are
    in the source. *)
Fixpoint utf8_points (bs : list N) : pystr :=
  match bs with
  | [] => []
  | b0 :: t0 =>
      if (b0 <? 128)%N then b0 :: utf8_points t0
      else match t0 with
      | [] => []
      | b1 :: t1 =>
          if (b0 <? 224)%N
          then ((b0 - 192) * 64 + (b1 - 128))%N :: utf8_points t1
          else match t1 with
          | [] => []
          | b2 :: t2 =>
              if (b0 <? 240)%N
              then ((b0 - 224) * 4096 + (b1 - 128) * 64 + (b2 - 128))%N
                     :: utf8_points t2
              else match t2 with
              | [] => []
              | b3 :: t3 =>
                  ((b0 - 240) * 262144 + (b1 - 128) * 4096
                   + (b2 - 128) * 64 + (b3 - 128))%N :: utf8_points t3
              end
          end
      end
  end.

Definition py (s : string) : pystr :=
  utf8_points (List.map N_of_ascii (list_ascii_of_string s)).

Definition ch (a : ascii) : N := N_of_ascii a.

Fixpoint pystr_eqb (a b : pystr) : bool :=
  match a, b with
  | [], [] => true
  | x :: a', y :: b' => (x =? y)%N && pystr_eqb a' b'
  | _, _ => false
  end.

(** [str(n)] of a non-negative [int]. *)
Definition str_of_nat (n : nat) : pystr :=
  py (NilEmpty.string_of_uint (Nat.to_uint n)).

(* ===================================================================== *)
(** ** Exceptions *)
(* ===================================================================== *)

(** The exceptions the script can meet. [OutsideModel] is not a Python
    exception: it stands for regular-expression syntax that this
    development does not cover (none of the script's patterns reaches it,
    see [patterns_inside_model]). *)
Inductive exn :=
| re_error (msg : pystr) (pos : nat)
| RequestException (msg : pystr)
| HTTPError (msg : pystr)
| LookupError (msg : pystr)
| OutsideModel.

Inductive result (A : Type) :=
| Ok (a : A)
| Raise (e : exn).
Arguments Ok {A} a.
Arguments Raise {A} e.

#[global] Instance result_ret : MRet result := fun _ a => Ok a.
#[global] Instance result_bind : MBind result := fun _ _ f m =>
  match m with
  | Ok a => f a
  | Raise e => Raise e
  end.

(** [str(e)], the text an f-string puts for an exception. *)
Definition exn_str (e : exn) : pystr :=
  match e with
  | re_error msg pos =>
      msg ++ py " at position " ++ str_of_nat pos
  | RequestException msg => msg
  | HTTPError msg => msg
  | LookupError msg => msg
  | OutsideModel => []
  end.

(* ===================================================================== *)
(** ** Unicode character data *)
(* ===================================================================== *)

(** [Py_UNICODE_ISSPACE]: the code points for which [str.isspace] holds,
    which are also the ones [\s] matches in a [str] pattern and the ones
    [str.strip()] removes. *)
Definition isspace (c : N) : bool :=
  ((9 <=? c) && (c <=? 13) || (28 <=? c) && (c <=? 32)
   || (c =? 133) || (c =? 160) || (c =? 5760)
   || (8192 <=? c) && (c <=? 8202)
   || (c =? 8232) || (c =? 8233) || (c =? 8239) || (c =? 8287)
   || (c =? 12288))%N.

(** The rest of the Unicode database the script depends on is a
    parameter of the development: the decimal digits ([\d]), the
    alphanumerics (behind [\w] and [\b]), the simple case mappings and
    the extra case-insensitive equivalents of [re], and [str.lower]. *)
Record unicode_data := {
  isdecimal : N -> bool;
  isalnum : N -> bool;
  tolower : N -> N;
  toupper : N -> N;
  casefix : N -> list N;
  str_lower : pystr -> pystr
}.

(** The database restricted to Basic Latin: exact below code point 128,
    every other code point caseless and neither digit nor letter. Used to
    run the model on the ASCII inputs of the examples. *)
Definition ascii_isdigit (c : N) : bool := ((48 <=? c) && (c <=? 57))%N.
Definition ascii_isupper (c : N) : bool := ((65 <=? c) && (c <=? 90))%N.
Definition ascii_islower (c : N) : bool := ((97 <=? c) && (c <=? 122))%N.
Definition ascii_tolower (c : N) : N := if ascii_isupper c then (c + 32)%N else c.
Definition ascii_toupper (c : N) : N := if ascii_islower c then (c - 32)%N else c.

Definition basic_latin : unicode_data := {|
  isdecimal := ascii_isdigit;
  isalnum := fun c => ascii_isdigit c || ascii_isupper c || ascii_islower c;
  tolower := ascii_tolower;
  toupper := ascii_toupper;
  casefix := fun c =>
    if (c =? 105)%N then [305%N] else if (c =? 115)%N then [383%N] else [];
  str_lower := List.map ascii_tolower
|}.

(* ===================================================================== *)
(** ** Regular expressions: syntax *)
(* ===================================================================== *)

(** The parsed form of a pattern, after [sre_parse]: the constructors
    carry the names of its opcodes. A sequence is a right-nested [SEQ]
    ending in [EMPTY]. *)
Inductive category := CATEGORY_DIGIT | CATEGORY_SPACE | CATEGORY_WORD.

Inductive setitem :=
| SET_LITERAL (c : N)
| SET_RANGE (lo hi : N)
| SET_CATEGORY (negated : bool) (k : category).

Inductive regex :=
| EMPTY
| LITERAL (c : N)
| ANY
| IN (negate : bool) (items : list setitem)
| AT_BOUNDARY
| SUBPATTERN (r : regex)
| BRANCH (r1 r2 : regex)
| SEQ (r1 r2 : regex)
| MAX_REPEAT (lo : nat) (hi : option nat) (r : regex).

Definition eqc (a : ascii) (c : N) : bool := (c =? ch a)%N.

Definition is_ascii_alnum (c : N) : bool :=
  ascii_isdigit c || ascii_isupper c || ascii_islower c.

(** *** The parser of [re.compile] *)

(** [\d], [\s], [\w] and their negations, inside or outside a set. *)
Definition category_escape (c : N) : option setitem :=
  if eqc "d" c then Some (SET_CATEGORY false CATEGORY_DIGIT)
  else if eqc "D" c then Some (SET_CATEGORY true CATEGORY_DIGIT)
  else if eqc "s" c then Some (SET_CATEGORY false CATEGORY_SPACE)
  else if eqc "S" c then Some (SET_CATEGORY true CATEGORY_SPACE)
  else if eqc "w" c then Some (SET_CATEGORY false CATEGORY_WORD)
  else if eqc "W" c then Some (SET_CATEGORY true CATEGORY_WORD)
  else None.

(** [_class_escape] and the literal case of the set loop: one member of
    a set and what is left of the pattern. [here] is the index of the
    opening bracket, the position Python reports. *)
Definition set_atom (s : pystr) (here : nat) : result (setitem * pystr * nat) :=
  match s with
  | [] => Raise (re_error (py "unterminated character set") here)
  | c :: t =>
      if eqc "\" c then
        match t with
        | [] => Raise (re_error (py "bad escape (end of pattern)") here)
        | e :: t' =>
            match category_escape e with
            | Some k => Ok (k, t', 2)
            | None =>
                if eqc "\" e then Ok (SET_LITERAL e, t', 2)
                else if is_ascii_alnum e then Raise OutsideModel
                else Ok (SET_LITERAL e, t', 2)
            end
        end
      else Ok (SET_LITERAL c, t, 1)
  end.

(** The loop of [_parse] over the members of a set, entered after the
    opening bracket and the optional [^]. A closing bracket that comes
    first is a member, a [-] between two literals makes a range, the end
    of the pattern is an error. *)
Fixpoint parse_set (fuel : nat) (s : pystr) (pos here : nat)
    (acc : list setitem) : result (list setitem * pystr * nat) :=
  match fuel with
  | 0 => Raise (re_error (py "unterminated character set") here)
  | S fuel =>
      match s with
      | [] => Raise (re_error (py "unterminated character set") here)
      | c :: t =>
          if eqc "]" c && negb (match acc with [] => true | _ => false end)
          then Ok (rev acc, t, S pos)
          else
            '(code1, s1, n1) ← set_atom s here;
            match s1 with
            | d :: s2 =>
                if eqc "-" d then
                  match s2 with
                  | [] => Raise (re_error (py "unterminated character set") here)
                  | c2 :: s3 =>
                      if eqc "]" c2
                      then Ok (rev (SET_LITERAL (ch "-") :: code1 :: acc),
                               s3, pos + n1 + 2)
                      else
                        '(code2, s4, n2) ← set_atom s2 here;
                        match code1, code2 with
                        | SET_LITERAL lo, SET_LITERAL hi =>
                            if (hi <? lo)%N
                            then Raise (re_error
                                         (py "bad character range "
                                          ++ [lo] ++ py "-" ++ [hi]) pos)
                            else parse_set fuel s4 (pos + n1 + 1 + n2) here
                                           (SET_RANGE lo hi :: acc)
                        | _, _ => Raise (re_error
                                           (py "bad character range") pos)
                        end
                  end
                else parse_set fuel s1 (pos + n1) here (code1 :: acc)
            | [] => parse_set fuel s1 (pos + n1) here (code1 :: acc)
            end
      end
  end.

(** Decimal digits of a repeat count. *)
Fixpoint take_digits (s : pystr) : pystr * pystr :=
  match s with
  | c :: t =>
      if ascii_isdigit c
      then let '(ds, r) := take_digits t in (c :: ds, r)
      else ([], s)
  | [] => ([], [])
  end.

Definition int_of_digits (ds : pystr) : nat :=
  fold_left (fun n c => 10 * n + N.to_nat (c - 48)) ds 0.

(** The repeat that starts [s] at index [pos], if one does: its bounds
    and what follows it. A [{] that opens no well-formed [{m,n}] is no
    repeat (the parser then takes it as a literal); bounds in the wrong
    order are an error of their own. *)
Definition repeat_at (s : pystr) (pos : nat)
    : result (option (nat * option nat * pystr * nat)) :=
  match s with
  | [] => Ok None
  | c :: t =>
      if eqc "*" c then Ok (Some (0, None, t, 1))
      else if eqc "+" c then Ok (Some (1, None, t, 1))
      else if eqc "?" c then Ok (Some (0, Some 1, t, 1))
      else if eqc "{" c then
        match t with
        | [] => Ok None
        | c1 :: _ =>
            if eqc "}" c1 then Ok None
            else
              let '(lo, r1) := take_digits t in
              let '(hi, r2, n) :=
                match r1 with
                | c2 :: r1' =>
                    if eqc "," c2
                    then let '(hi, r2) := take_digits r1' in
                         (hi, r2, 1 + length hi)
                    else (lo, r1, 0)
                | [] => (lo, r1, 0)
                end in
              match r2 with
              | c3 :: r3 =>
                  if eqc "}" c3
                  then
                    let min := match lo with [] => 0 | _ => int_of_digits lo end in
                    match hi with
                    | [] => Ok (Some (min, None, r3, 2 + length lo + n))
                    | _ =>
                        if int_of_digits hi <? min
                        then Raise (re_error
                                      (py "min repeat greater than max repeat")
                                      (S pos))
                        else Ok (Some (min, Some (int_of_digits hi), r3,
                                       2 + length lo + n))
                    end
                  else Ok None
              | [] => Ok None
              end
        end
      else Ok None
  end.

(** The repeat after an item. A repeat of a position assertion is
    [nothing to repeat], a repeat of a repeat is [multiple repeat]; the
    lazy and possessive forms are outside the model. *)
Definition parse_repeat (item : regex) (s : pystr) (pos : nat)
    : result (regex * pystr * nat) :=
  r ← repeat_at s pos;
  match r with
  | None => Ok (item, s, pos)
  | Some (lo, hi, s1, n) =>
      match item with
      | AT_BOUNDARY => Raise (re_error (py "nothing to repeat") pos)
      | _ =>
          match s1 with
          | c :: _ =>
              if eqc "?" c || eqc "+" c then Raise OutsideModel
              else
                r' ← repeat_at s1 (pos + n);
                match r' with
                | Some _ => Raise (re_error (py "multiple repeat") (pos + n))
                | None => Ok (MAX_REPEAT lo hi item, s1, pos + n)
                end
          | [] => Ok (MAX_REPEAT lo hi item, s1, pos + n)
          end
      end
  end.

(** An escape outside a set ([_escape]). *)
Definition parse_escape (t : pystr) (pos : nat) : result (regex * pystr * nat) :=
  match t with
  | [] => Raise (re_error (py "bad escape (end of pattern)") pos)
  | e :: t' =>
      match category_escape e with
      | Some k => Ok (IN false [k], t', pos + 2)
      | None =>
          if eqc "b" e then Ok (AT_BOUNDARY, t', pos + 2)
          else if is_ascii_alnum e then Raise OutsideModel
          else Ok (LITERAL e, t', pos + 2)
      end
  end.

(** [_parse_sub] (alternatives), [_parse] (a sequence of items) and one
    item. The recursion of the source is on the nesting of groups; here
    it is bounded by [fuel], which [re_parse] sets from the length of the
    pattern. *)
Fixpoint parse_sub (fuel : nat) (s : pystr) (pos : nat)
    : result (regex * pystr * nat) :=
  match fuel with
  | 0 => Raise OutsideModel
  | S fuel =>
      '(r1, s1, p1) ← parse_seq fuel s pos;
      match s1 with
      | c :: s2 =>
          if eqc "|" c
          then '(r2, s3, p3) ← parse_sub fuel s2 (S p1);
               Ok (BRANCH r1 r2, s3, p3)
          else Ok (r1, s1, p1)
      | [] => Ok (r1, s1, p1)
      end
  end
with parse_seq (fuel : nat) (s : pystr) (pos : nat)
    : result (regex * pystr * nat) :=
  match fuel with
  | 0 => Raise OutsideModel
  | S fuel =>
      match s with
      | [] => Ok (EMPTY, s, pos)
      | c :: _ =>
          if eqc "|" c || eqc ")" c then Ok (EMPTY, s, pos)
          else
            '(item, s1, p1) ← parse_item fuel s pos;
            '(item', s2, p2) ← parse_repeat item s1 p1;
            '(rest, s3, p3) ← parse_seq fuel s2 p2;
            Ok (SEQ item' rest, s3, p3)
      end
  end
with parse_item (fuel : nat) (s : pystr) (pos : nat)
    : result (regex * pystr * nat) :=
  match fuel with
  | 0 => Raise OutsideModel
  | S fuel =>
      match s with
      | [] => Raise OutsideModel
      | c :: t =>
          if eqc "\" c then parse_escape t pos
          else if eqc "[" c then
            let '(negate, t', p') :=
              match t with
              | c1 :: t1 => if eqc "^" c1 then (true, t1, pos + 2)
                            else (false, t, S pos)
              | [] => (false, t, S pos)
              end in
            '(items, s1, p1) ← parse_set (S (length t')) t' p' pos [];
            Ok (IN negate items, s1, p1)
          else if eqc "(" c then
            '(t', p') ←
              match t with
              | c1 :: t1 =>
                  if eqc "?" c1 then
                    match t1 with
                    | c2 :: t2 => if eqc ":" c2 then Ok (t2, pos + 3)
                                  else Raise OutsideModel
                    | [] => Raise (re_error (py "unexpected end of pattern") (pos + 2))
                    end
                  else Ok (t, S pos)
              | [] => Ok (t, S pos)
              end;
            '(r, s1, p1) ← parse_sub fuel t' p';
            match s1 with
            | c3 :: s2 =>
                if eqc ")" c3 then Ok (SUBPATTERN r, s2, S p1)
                else Raise (re_error (py "missing ), unterminated subpattern") pos)
            | [] => Raise (re_error (py "missing ), unterminated subpattern") pos)
            end
          else if eqc "." c then Ok (ANY, t, S pos)
          else if eqc "^" c || eqc "$" c then Raise OutsideModel
          else
            r ← repeat_at s pos;
            match r with
            | Some _ => Raise (re_error (py "nothing to repeat") pos)
            | None => Ok (LITERAL c, t, S pos)
            end
      end
  end.

(** [sre_parse.parse]: the whole pattern, or the error of the parser. *)
Definition re_parse (src : pystr) : result regex :=
  '(r, rest, p) ← parse_sub (3 * length src + 3) src 0;
  match rest with
  | [] => Ok r
  | _ => Raise (re_error (py "unbalanced parenthesis") p)
  end.

(* ===================================================================== *)
(** ** Regular expressions: matching *)
(* ===================================================================== *)

(** A position in the subject: the character before it, if any, and
    what is left. *)
Definition cursor : Type := option N * pystr.

Definition rest (p : cursor) : pystr := snd p.

Definition advance (c : N) (t : pystr) : cursor := (Some c, t).

Section Matching.
Variable U : unicode_data.
Variable ignorecase : bool.

(** [\w]: alphanumeric or underscore. *)
Definition isword (c : N) : bool := isalnum U c || eqc "_" c.

Definition category_match (k : category) (c : N) : bool :=
  match k with
  | CATEGORY_DIGIT => isdecimal U c
  | CATEGORY_SPACE => isspace c
  | CATEGORY_WORD => isword c
  end.

Definition setitem_match (it : setitem) (c : N) : bool :=
  match it with
  | SET_LITERAL x => (c =? x)%N
  | SET_RANGE lo hi => ((lo <=? c) && (c <=? hi))%N
  | SET_CATEGORY negated k => xorb negated (category_match k c)
  end.

Definition set_match (negate : bool) (items : list setitem) (c : N) : bool :=
  xorb negate (existsb (fun it => setitem_match it c) items).

(** [_sre.unicode_iscased]. *)
Definition iscased (c : N) : bool :=
  negb (c =? tolower U c)%N || negb (c =? toupper U c)%N.

(** A literal of the pattern against a character of the subject. Under
    IGNORECASE a cased literal is compiled to its lower case [lo] and
    matches every character whose lower case is [lo] or one of the
    extra equivalents of [lo]. *)
Definition literal_match (x c : N) : bool :=
  if ignorecase && iscased x
  then let lo := tolower U x in
       let lc := tolower U c in
       (lc =? lo)%N || existsb (N.eqb lc) (casefix U lo)
  else (c =? x)%N.

(** [\b]: exactly one of the two neighbours is a word character. *)
Definition opt_word (o : option N) : bool :=
  match o with
  | Some c => isword c
  | None => false
  end.

Definition at_boundary (p : cursor) : bool :=
  xorb (opt_word (fst p)) (opt_word (head (rest p))).

(** One character of the subject against a test. *)
Definition step_char (test : N -> bool) (k : cursor -> option cursor)
    (p : cursor) : option cursor :=
  match rest p with
  | c :: t => if test c then k (advance c t) else None
  | [] => None
  end.

(** A greedy repeat of [body]: [repeat_must] runs the compulsory
    iterations, [repeat_may] up to [n] more, each tried before the
    continuation [k]. *)
Definition matcher : Type :=
  (cursor -> option cursor) -> cursor -> option cursor.

Fixpoint repeat_may (body : matcher) (k : cursor -> option cursor)
    (n : nat) : cursor -> option cursor :=
  match n with
  | 0 => k
  | S n' => fun q => match body (repeat_may body k n') q with
                     | Some e => Some e
                     | None => k q
                     end
  end.

Fixpoint repeat_must (body : matcher) (lo : nat)
    (k : cursor -> option cursor) : cursor -> option cursor :=
  match lo with
  | 0 => k
  | S lo' => body (repeat_must body lo' k)
  end.

(** The backtracking matcher: [rmatch r k p] is the end of the first
    match of [r] at [p] followed by [k], in the order in which the
    engine tries them (left alternative first, longest repeat first). *)
Fixpoint rmatch (r : regex) (k : cursor -> option cursor) (p : cursor)
    {struct r} : option cursor :=
  match r with
  | EMPTY => k p
  | LITERAL x => step_char (literal_match x) k p
  | ANY => step_char (fun c => negb (c =? 10)%N) k p
  | IN negate items => step_char (set_match negate items) k p
  | AT_BOUNDARY => if at_boundary p then k p else None
  | SUBPATTERN r1 => rmatch r1 k p
  | BRANCH r1 r2 =>
      match rmatch r1 k p with
      | Some e => Some e
      | None => rmatch r2 k p
      end
  | SEQ r1 r2 => rmatch r1 (rmatch r2 k) p
  | MAX_REPEAT lo hi r1 =>
      let extra := match hi with
                   | Some h => h - lo
                   | None => length (rest p)
                   end in
      repeat_must (rmatch r1) lo (repeat_may (rmatch r1) k extra) p
  end.

(** The first match at or after the start of [s]: the number of
    characters before it and the position after it. *)
Fixpoint search_from (r : regex) (prev : option N) (s : pystr)
    : option (nat * cursor) :=
  match rmatch r Some (prev, s) with
  | Some e => Some (0, e)
  | None =>
      match s with
      | [] => None
      | c :: t =>
          match search_from r (Some c) t with
          | Some (n, e) => Some (S n, e)
          | None => None
          end
      end
  end.

(** The loop of [sub]: every match, leftmost first, replaced by
    [repl]. [skip] counts the characters of the current match still to
    pass. (An empty match would put [repl] and move on by one character;
    [re_sub] lets no pattern with empty matches come here.) *)
Fixpoint sub_loop (r : regex) (repl : pystr) (skip : nat)
    (prev : option N) (s : pystr) : pystr :=
  match skip, s with
  | S n, c :: t => sub_loop r repl n (Some c) t
  | S _, [] => []
  | 0, _ =>
      match rmatch r Some (prev, s) with
      | Some e =>
          match s with
          | [] => repl
          | c :: t =>
              match length s - length (rest e) with
              | 0 => repl ++ c :: sub_loop r repl 0 (Some c) t
              | S n => repl ++ sub_loop r repl n (Some c) t
              end
          end
      | None =>
          match s with
          | [] => []
          | c :: t => c :: sub_loop r repl 0 (Some c) t
          end
      end
  end.
End Matching.

(** *** Compiled patterns *)

(** A repeat body that can match the empty string, and a set with
    literals or ranges under IGNORECASE, are outside the model (and so
    is a repeat with its maximum under its minimum, which the parser has
    refused before). *)
Fixpoint nullable (r : regex) : bool :=
  match r with
  | EMPTY | AT_BOUNDARY => true
  | LITERAL _ | ANY | IN _ _ => false
  | SUBPATTERN r1 => nullable r1
  | BRANCH r1 r2 => nullable r1 || nullable r2
  | SEQ r1 r2 => nullable r1 && nullable r2
  | MAX_REPEAT lo _ r1 => match lo with 0 => true | _ => nullable r1 end
  end.

Definition category_only (it : setitem) : bool :=
  match it with
  | SET_CATEGORY _ _ => true
  | _ => false
  end.

Fixpoint inside_model (ignorecase : bool) (r : regex) : bool :=
  match r with
  | EMPTY | LITERAL _ | ANY | AT_BOUNDARY => true
  | IN _ items => negb ignorecase || forallb category_only items
  | SUBPATTERN r1 => inside_model ignorecase r1
  | BRANCH r1 r2 | SEQ r1 r2 =>
      inside_model ignorecase r1 && inside_model ignorecase r2
  | MAX_REPEAT lo hi r1 =>
      negb (nullable r1) && inside_model ignorecase r1
      && match hi with Some h => lo <=? h | None => true end
  end.

Record Pattern := {
  pat_regex : regex;
  pat_ignorecase : bool
}.

(** [re.compile(src, flags)], with [re.IGNORECASE] the only flag. *)
Definition re_compile (src : pystr) (ignorecase : bool) : result Pattern :=
  r ← re_parse src;
  if inside_model ignorecase r
  then Ok {| pat_regex := r; pat_ignorecase := ignorecase |}
  else Raise OutsideModel.

(** [pattern.search(s)], as the truth value the script takes of it. *)
Definition Pattern_search (U : unicode_data) (P : Pattern) (s : pystr) : bool :=
  match search_from U (pat_ignorecase P) (pat_regex P) None s with
  | Some _ => true
  | None => false
  end.

(** [re.sub(src, repl, s)]: the pattern is compiled at the call. The
    rules of [sub] for empty matches are not covered: a pattern that can
    match the empty string is outside the model. *)
Definition re_sub (U : unicode_data) (src repl s : pystr) : result pystr :=
  P ← re_compile src false;
  if nullable (pat_regex P) then Raise OutsideModel
  else Ok (sub_loop U false (pat_regex P) repl 0 None s).

(** [re.split(src, s, maxsplit=1)]: the pattern is compiled at the
    call; the text before the first match and the text after it, or the
    whole of [s] when nothing matches. As for [re_sub], a pattern that
    can match the empty string is outside the model. *)
Definition re_split_1 (U : unicode_data) (src s : pystr) : result (list pystr) :=
  P ← re_compile src false;
  if nullable (pat_regex P) then Raise OutsideModel
  else match search_from U false (pat_regex P) None s with
       | Some (n, e) => Ok [take n s; rest e]
       | None => Ok [s]
       end.

(* ===================================================================== *)
(** ** String methods *)
(* ===================================================================== *)

Fixpoint lstrip_by (test : N -> bool) (s : pystr) : pystr :=
  match s with
  | c :: t => if test c then lstrip_by test t else s
  | [] => []
  end.

Definition strip_by (test : N -> bool) (s : pystr) : pystr :=
  rev (lstrip_by test (rev (lstrip_by test s))).

(** [s.strip()]. *)
Definition strip (s : pystr) : pystr := strip_by isspace s.

(** [s.strip(chars)]. *)
Definition strip_chars (chars s : pystr) : pystr :=
  strip_by (fun c => existsb (N.eqb c) chars) s.

(** [s.split(sep)] for a separator of one character. *)
Fixpoint split_char (sep : N) (s : pystr) : list pystr :=
  match s with
  | [] => [[]]
  | c :: t =>
      if (c =? sep)%N then [] :: split_char sep t
      else match split_char sep t with
           | h :: r => (c :: h) :: r
           | [] => [[c]]
           end
  end.

(** [sep.join(parts)]. *)
Fixpoint join (sep : pystr) (parts : list pystr) : pystr :=
  match parts with
  | [] => []
  | [x] => x
  | x :: r => x ++ sep ++ join sep r
  end.

Fixpoint startswith (prefix s : pystr) : bool :=
  match prefix, s with
  | [], _ => true
  | x :: p', c :: t => (c =? x)%N && startswith p' t
  | _ :: _, [] => false
  end.

(** [needle in hay]. *)
Fixpoint contains (needle hay : pystr) : bool :=
  startswith needle hay ||
  match hay with
  | [] => false
  | _ :: t => contains needle t
  end.

(** Truth value of a [str]. *)
Definition truthy (s : pystr) : bool :=
  match s with
  | [] => false
  | _ :: _ => true
  end.

(* ===================================================================== *)
(** ** The script *)
(* ===================================================================== *)

Definition URLS : list pystr := [
  py "https://www.seeing-stars.com/Died/2010s.shtml";
  py "https://www.seeing-stars.com/Died/2000s.shtml";
  py "https://www.seeing-stars.com/Died/90s.shtml";
  py "https://www.seeing-stars.com/Died/80s.shtml";
  py "https://www.seeing-stars.com/Died/70s.shtml";
  py "https://www.seeing-stars.com/Died/60s.shtml";
  py "https://www.seeing-stars.com/Died/50s_20s.shtml#20s"
].

Definition OUTFILE : pystr := py "seeing-stars-summaries.txt".

Definition MONTH_RE : pystr :=
  py "(Jan(?:uary)?|Feb(?:ruary)?|Mar(?:ch)?|Apr(?:il)?|May|Jun(?:e)?|Jul(?:y)?|Aug(?:ust)?|Sep(?:t(?:ember)?)?|Oct(?:ober)?|Nov(?:ember)?|Dec(?:ember)?)".

(** The pattern string the [rf] literal of [DATE_PAT] evaluates to. *)
Definition DATE_PAT_source : pystr :=
  py "(" ++ MONTH_RE
  ++ py "\s+\d{1,2},\s+\d{4})|(\d{1,2}/\d{1,2}/\d{2,4})|\b(19\d{2}|20\d{2})\b".

Definition WIKI_PAT_source : pystr := py "wikipedia\.org/wiki/".

(** The value of a module-level [re.compile]; both compile, see
    [DATE_PAT_compiles] and [WIKI_PAT_compiles]. *)
Definition compiled (c : result Pattern) : Pattern :=
  match c with
  | Ok P => P
  | Raise _ => {| pat_regex := EMPTY; pat_ignorecase := false |}
  end.

Definition DATE_PAT : Pattern :=
  Eval vm_compute in compiled (re_compile DATE_PAT_source true).

Definition WIKI_PAT : Pattern :=
  Eval vm_compute in compiled (re_compile WIKI_PAT_source true).

(** *** The outside world *)

(** What [requests.get] returns. *)
Record Response := {
  status_code : N;
  reason : pystr;
  url : pystr;
  content : list byte;
  encoding : option pystr;
  apparent_encoding : option pystr
}.

(** The parts of a run that are not code of the script: the network
    ([requests.get(url, headers=HEADERS, timeout=45)], which returns a
    response or raises), the codecs other than latin-1
    ([bytes.decode(enc, errors="replace")], which raise [LookupError] on
    an unknown name), the HTML parser (the text of the page after every
    [br] is replaced by a newline, [soup.get_text] with a newline
    separator, and the [href] of every [a] in document order, [None] when
    the attribute is absent) and the clock. *)
Record environment := {
  requests_get : pystr -> result Response;
  codec_decode : pystr -> list byte -> result pystr;
  soup_get_text : pystr -> pystr;
  soup_hrefs : pystr -> list (option pystr);
  now_isoformat : pystr
}.

(** [Response.raise_for_status] of [requests]: [HTTPError] on a 4xx or
    a 5xx status, nothing otherwise. *)
Definition raise_for_status (r : Response) : result unit :=
  let msg kind :=
    str_of_nat (N.to_nat (status_code r)) ++ kind ++ reason r
    ++ py " for url: " ++ url r in
  if ((400 <=? status_code r) && (status_code r <? 500))%N
  then Raise (HTTPError (msg (py " Client Error: ")))
  else if ((500 <=? status_code r) && (status_code r <? 600))%N
  then Raise (HTTPError (msg (py " Server Error: ")))
  else Ok tt.

(** latin-1 gives every byte the code point of its value. *)
Definition latin_1_decode (bs : list byte) : pystr := List.map Byte.to_N bs.

(** [bs.decode(enc, errors="replace")]. *)
Definition bytes_decode (E : environment) (enc : pystr) (bs : list byte)
    : result pystr :=
  if pystr_eqb enc (py "latin-1") then Ok (latin_1_decode bs)
  else codec_decode E enc bs.

(** [a or b] on optional strings: [None] and the empty string are false. *)
Definition or_else (a : option pystr) (b : pystr) : pystr :=
  match a with
  | Some (c :: t) => c :: t
  | _ => b
  end.

(** The [try] of [fetch_html]: the body of a response to text. *)
Definition decode_body (E : environment) (r : Response) : result pystr :=
  let enc := or_else (encoding r) (or_else (apparent_encoding r) (py "utf-8")) in
  match bytes_decode E enc (content r) with
  | Ok text => Ok text
  | Raise _ => bytes_decode E (py "latin-1") (content r)
  end.

Definition fetch_html (E : environment) (u : pystr) : result pystr :=
  r ← requests_get E u;
  _ ← raise_for_status r;
  decode_body E r.

(** *** The stages *)

Definition clean (U : unicode_data) (s : pystr) : result pystr :=
  t ← re_sub U (py "\s+") (py " ") s;
  Ok (strip t).

(** [[clean(x) for x in segments if clean(x)]]. *)
Fixpoint clean_lines (U : unicode_data) (segments : list pystr)
    : result (list pystr) :=
  match segments with
  | [] => Ok []
  | x :: xs =>
      c ← clean U x;
      if truthy c
      then c' ← clean U x;
           r ← clean_lines U xs;
           Ok (c' :: r)
      else clean_lines U xs
  end.

(** The Normalizer: the lines of a page. *)
Definition page_lines (U : unicode_data) (E : environment) (html : pystr)
    : result (list pystr) :=
  clean_lines U (split_char 10 (soup_get_text E html)).

(** The Link Collector. *)
Fixpoint collect_links (U : unicode_data) (hrefs : list (option pystr))
    : list pystr :=
  match hrefs with
  | [] => []
  | a :: rest =>
      let href := or_else a [] in
      if Pattern_search U WIKI_PAT href
      then href :: collect_links U rest
      else collect_links U rest
  end.

(** The Entry Filter. *)
Fixpoint keep_lines (U : unicode_data) (lines : list pystr) : list pystr :=
  match lines with
  | [] => []
  | ln :: rest =>
      if length ln <? 10 then keep_lines U rest
      else if Pattern_search U DATE_PAT ln
           then ln :: keep_lines U rest
           else keep_lines U rest
  end.

(** The Entry Formatter. *)
Definition name_guess (U : unicode_data) (ln : pystr) : result pystr :=
  parts ← re_split_1 U (py "[-–—]|\\(|\\[") ln;
  clean U (hd [] parts).

Definition name_token (U : unicode_data) (name : pystr) : result pystr :=
  t ← re_sub U (py "[^a-z0-9]+") (py "_") (str_lower U name);
  Ok (strip_chars (py "_") t).

(** The loop over [wiki_links], left at the first link that has the
    token. *)
Fixpoint wiki_guess (U : unicode_data) (token : pystr) (wiki_links : list pystr)
    : pystr :=
  match wiki_links with
  | [] => []
  | w :: rest =>
      if truthy token && contains token (str_lower U w) then w
      else wiki_guess U token rest
  end.

(** One turn of the loop over [kept]: the four lines it appends. *)
Definition format_entry (U : unicode_data) (wiki_links : list pystr)
    (ln : pystr) : result (list pystr) :=
  name ← name_guess U ln;
  token ← name_token U name;
  let w := wiki_guess U token wiki_links in
  Ok [py "- Name: " ++ name;
      py "  Summary line: " ++ ln;
      py "  Wikipedia: " ++ w;
      []].

(** The state of [main]: the buffer [out] and [total_lines]. *)
Definition state : Type := list pystr * nat.

Fixpoint write_entries (U : unicode_data) (wiki_links kept : list pystr)
    (st : state) : result state :=
  match kept with
  | [] => Ok st
  | ln :: rest =>
      let '(out, total_lines) := st in
      let total_lines := total_lines + 1 in
      block ← format_entry U wiki_links ln;
      write_entries U wiki_links rest (out ++ block, total_lines)
  end.

Definition rule : pystr := repeat (ch "=") 90.

(** One turn of the loop over [URLS]. *)
Definition source_step (U : unicode_data) (E : environment) (u : pystr)
    (st : state) : result state :=
  let '(out, total_lines) := st in
  let out := out ++ [rule; py "SOURCE: " ++ u; rule] in
  match fetch_html E u with
  | Raise e =>
      Ok (out ++ [py "[ERROR] Could not fetch page: " ++ exn_str e; []],
          total_lines)
  | Ok html =>
      lines ← page_lines U E html;
      let wiki_links := collect_links U (soup_hrefs E html) in
      let kept := keep_lines U lines in
      match kept with
      | [] =>
          Ok (out
              ++ [py "[DEBUG] No date-like lines found. First 200 raw lines from page:"]
              ++ List.map (fun ln => py "- RAW: " ++ ln) (take 200 lines)
              ++ [[]],
              total_lines)
      | _ =>
          '(out, total_lines) ← write_entries U wiki_links kept (out, total_lines);
          Ok (out ++ [[]], total_lines)
      end
  end.

Fixpoint source_loop (U : unicode_data) (E : environment) (urls : list pystr)
    (st : state) : result state :=
  match urls with
  | [] => Ok st
  | u :: rest =>
      st' ← source_step U E u st;
      source_loop U E rest st'
  end.

Definition header (E : environment) : list pystr := [
  py "Seeing-Stars Summary Extract";
  py "Generated: " ++ now_isoformat E;
  py "Requested fields: Name | Date of death | Location | Cause | Wikipedia (if available)";
  py "NOTE: This is a loose extraction. Some lines may need manual cleanup.";
  []
].

(** The file system and the console, as far as the script touches
    them: the text of each file, the operations done on files, in order,
    and the lines printed. The encoding of the text to UTF-8 bytes by the
    file object is not modelled. *)
Inductive file_op :=
| op_open_w (path : pystr)
| op_write (path text : pystr)
| op_close (path : pystr).

Record world := {
  files : pystr -> option pystr;
  file_ops : list file_op;
  stdout : list pystr
}.

Definition write_file (path text : pystr) (w : world) : world := {|
  files := fun p => if pystr_eqb p path then Some text else files w p;
  file_ops := file_ops w ++ [op_open_w path; op_write path text; op_close path];
  stdout := stdout w
|}.

Definition print (line : pystr) (w : world) : world := {|
  files := files w;
  file_ops := file_ops w;
  stdout := stdout w ++ [line]
|}.

(** [main]: the world after the run, and how the run ended. *)
Definition main (U : unicode_data) (E : environment) (w : world)
    : world * result unit :=
  match source_loop U E URLS (header E, 0) with
  | Raise e => (w, Raise e)
  | Ok (out, total_lines) =>
      let w := write_file OUTFILE (join [10%N] out) w in
      let w := print (py "Done. Wrote " ++ str_of_nat total_lines
                      ++ py " entry lines to " ++ OUTFILE) w in
      (w, Ok tt)
  end.

(* ===================================================================== *)
(** ** Sample worlds *)
(* ===================================================================== *)

(** Environments for running the model: pages without markup, for which
    the parser's text is the page itself and there are no anchors, and a
    codec table that knows only pure ASCII bodies. *)
Definition ascii_codec (enc : pystr) (bs : list byte) : result pystr :=
  if forallb (fun b => (Byte.to_N b <? 128)%N) bs
  then Ok (List.map Byte.to_N bs)
  else Raise (LookupError (py "unknown encoding: " ++ enc)).

Definition plain_env (get : pystr -> result Response) : environment := {|
  requests_get := get;
  codec_decode := ascii_codec;
  soup_get_text := fun html => html;
  soup_hrefs := fun _ => [];
  now_isoformat := py "2024-05-06T07:08:09"
|}.

Definition respond (status : N) (why : pystr) (body : string) (u : pystr)
    : result Response :=
  Ok {| status_code := status; reason := why; url := u;
        content := list_byte_of_string body;
        encoding := Some (py "utf-8"); apparent_encoding := None |}.

Definition refused (u : pystr) : result Response :=
  Raise (RequestException (py "Connection refused")).

Definition empty_world : world := {|
  files := fun _ => None;
  file_ops := [];
  stdout := []
|}.

Definition old_report_world : world := {|
  files := fun p => if pystr_eqb p OUTFILE then Some (py "old report") else None;
  file_ops := [];
  stdout := []
|}.

(** Lines of a buffer that start with a given text. *)
Definition count_prefixed (prefix : pystr) (out : list pystr) : nat :=
  length (List.filter (startswith prefix) out).

(** The same outside world with another time on the clock. *)
Definition set_clock (now : pystr) (E : environment) : environment := {|
  requests_get := requests_get E;
  codec_decode := codec_decode E;
  soup_get_text := soup_get_text E;
  soup_hrefs := soup_hrefs E;
  now_isoformat := now
|}.

(** The blocks a source can leave in the buffer. *)
Definition source_head (u : pystr) : list pystr :=
  [rule; py "SOURCE: " ++ u; rule].

Definition error_block (u : pystr) (e : exn) : list pystr :=
  source_head u ++ [py "[ERROR] Could not fetch page: " ++ exn_str e; []].

Definition debug_block (u : pystr) (lines : list pystr) : list pystr :=
  source_head u
  ++ [py "[DEBUG] No date-like lines found. First 200 raw lines from page:"]
  ++ List.map (fun ln => py "- RAW: " ++ ln) (take 200 lines)
  ++ [[]].

(** The parsed forms of the two patterns given to [re.sub]. *)
Definition spaces : regex :=
  MAX_REPEAT 1 None (IN false [SET_CATEGORY false CATEGORY_SPACE]).

Definition not_lower_alnum : regex :=
  MAX_REPEAT 1 None (IN true [SET_RANGE 97 122; SET_RANGE 48 57]).

(* ===================================================================== *)
(** ** Text functions of the statements *)
(* ===================================================================== *)

(** The position after the longest run of [test] characters. *)
Fixpoint skip_run (test : N -> bool) (prev : option N) (s : pystr) : cursor :=
  match s with
  | c :: t => if test c then skip_run test (Some c) t else (prev, s)
  | [] => (prev, [])
  end.

Fixpoint run_length (test : N -> bool) (s : pystr) : nat :=
  match s with
  | c :: t => if test c then S (run_length test t) else 0
  | [] => 0
  end.

(** Every maximal run of [test] characters replaced by [repl]; [inrun]
    tells that the character before [s] was one of the run. *)
Fixpoint collapse (test : N -> bool) (repl : pystr) (inrun : bool) (s : pystr)
    : pystr :=
  match s with
  | [] => []
  | c :: t =>
      if test c
      then (if inrun then [] else repl) ++ collapse test repl true t
      else c :: collapse test repl false t
  end.

(** Whitespace runs collapsed to one space, ends trimmed. *)
Definition clean_text (s : pystr) : pystr :=
  strip (collapse isspace (py " ") false s).

(** No two neighbours both satisfy [test]. *)
Definition no_double (test : N -> bool) (s : pystr) : Prop :=
  forall l1 a b l2, s = l1 ++ a :: b :: l2 -> test a = true -> test b = false.

(** [spaced pw s]: no two neighbours of [s] satisfy [test], the
    character before [s] counting when [pw] is set. *)
Fixpoint spaced (test : N -> bool) (pw : bool) (s : pystr) : bool :=
  match s with
  | [] => true
  | c :: t => if test c then negb pw && spaced test true t
              else spaced test false t
  end.

(** A line as the Normalizer leaves it. *)
Definition normalized (line : pystr) : Prop :=
  line <> []
  /\ (forall c, head line = Some c -> isspace c = false)
  /\ (forall c, last line = Some c -> isspace c = false)
  /\ no_double isspace line.

(** The token of a name as the pattern of the source classes the
    characters: lower case, every run of characters other than a-z and
    0-9 replaced by one underscore, underscores trimmed at both ends. *)
Definition is_lower_alnum (c : N) : bool := ascii_islower c || ascii_isdigit c.

Definition token_of (U : unicode_data) (name : pystr) : pystr :=
  strip_by (eqc "_")
    (collapse (fun c => negb (is_lower_alnum c)) (py "_") false
       (str_lower U name)).

(** [needle] occurs in [hay]. *)
Definition substring (needle hay : pystr) : Prop :=
  exists a b, hay = a ++ needle ++ b.

(** A link that carries the token. *)
Definition has_token (U : unicode_data) (token w : pystr) : Prop :=
  token <> [] /\ substring token (str_lower U w).


(** The lines the Normalizer gives for a page. *)
Definition lines_of (E : environment) (html : pystr) : list pystr :=
  List.filter truthy (List.map clean_text (split_char 10 (soup_get_text E html))).

(** A fetch that fails: [requests.get] raises (no connection, timeout,
    too many redirects), or the status of the response is one
    [raise_for_status] raises on. *)
Definition fetch_fails (E : environment) (u : pystr) : Prop :=
  (exists e, requests_get E u = Raise e)
  \/ (exists r, requests_get E u = Ok r /\ (400 <= status_code r < 600)%N).

(** A failed fetch in the words of the specification: any status
    outside 200..299 counts. *)
Definition fetch_fails_non_2xx (E : environment) (u : pystr) : Prop :=
  (exists e, requests_get E u = Raise e)
  \/ (exists r, requests_get E u = Ok r
                /\ ~ (200 <= status_code r < 300)%N).


(* ===================================================================== *)
(** ** What a pattern matches *)
(* ===================================================================== *)

(** The character before the position reached after the word [w]. *)
Definition last_or (prev : option N) (w : pystr) : option N :=
  match last w with
  | Some c => Some c
  | None => prev
  end.

Section Semantics.
Variable U : unicode_data.
Variable ic : bool.

(** [n] pieces in a row, each in [L]. A piece is judged with the
    character before it and the whole text after it. *)
Fixpoint sem_iter (n : nat) (L : option N -> pystr -> pystr -> Prop)
    (prev : option N) (w t : pystr) : Prop :=
  match n with
  | 0 => w = []
  | S n' =>
      exists w1 w2, w = w1 ++ w2 /\ L prev w1 (w2 ++ t)
                    /\ sem_iter n' L (last_or prev w1) w2 t
  end.

(** [sem r prev w t]: the pattern [r] matches the word [w] where
    [prev] is the character before [w] and [t] the text after it. *)
Fixpoint sem (r : regex) (prev : option N) (w t : pystr) : Prop :=
  match r with
  | EMPTY => w = []
  | LITERAL x => exists c, w = [c] /\ literal_match U ic x c = true
  | ANY => exists c, w = [c] /\ negb (c =? 10)%N = true
  | IN negate items => exists c, w = [c] /\ set_match U negate items c = true
  | AT_BOUNDARY => w = [] /\ at_boundary U (prev, t) = true
  | SUBPATTERN r1 => sem r1 prev w t
  | BRANCH r1 r2 => sem r1 prev w t \/ sem r2 prev w t
  | SEQ r1 r2 =>
      exists w1 w2, w = w1 ++ w2 /\ sem r1 prev w1 (w2 ++ t)
                    /\ sem r2 (last_or prev w1) w2 t
  | MAX_REPEAT lo hi r1 =>
      exists n, lo <= n
                /\ match hi with Some h => n <= h | None => True end
                /\ sem_iter n (sem r1) prev w t
  end.

(** Equal up to case: character by character, as IGNORECASE compares
    a literal of the pattern with a character of the subject. *)
Definition ci_equal (x w : pystr) : Prop :=
  Forall2 (fun a c => literal_match U ic a c = true) x w.
End Semantics.

(** The words of a pattern made of literals, groups, alternatives and
    optional parts only. *)
Fixpoint finite_literal (r : regex) : bool :=
  match r with
  | EMPTY | LITERAL _ => true
  | SUBPATTERN r1 => finite_literal r1
  | BRANCH r1 r2 | SEQ r1 r2 => finite_literal r1 && finite_literal r2
  | MAX_REPEAT 0 (Some 1) r1 => finite_literal r1
  | _ => false
  end.

Fixpoint words (r : regex) : list pystr :=
  match r with
  | EMPTY => [[]]
  | LITERAL x => [[x]]
  | SUBPATTERN r1 => words r1
  | BRANCH r1 r2 => words r1 ++ words r2
  | SEQ r1 r2 =>
      flat_map (fun a => List.map (fun b => a ++ b) (words r2)) (words r1)
  | MAX_REPEAT _ _ r1 => [] :: words r1
  | _ => []
  end.

(** A matcher [body] against a description [L] of what it matches:
    every result comes from a match ([sound]); whenever there is a match
    after which the continuation succeeds, there is a result
    ([complete]). *)
Definition sound (body : matcher) (L : option N -> pystr -> pystr -> Prop)
    : Prop :=
  forall k prev s e,
    body k (prev, s) = Some e ->
    exists w t, s = w ++ t /\ L prev w t /\ k (last_or prev w, t) = Some e.

Definition complete (body : matcher) (L : option N -> pystr -> pystr -> Prop)
    : Prop :=
  forall k prev w t,
    L prev w t -> is_Some (k (last_or prev w, t)) ->
    is_Some (body k (prev, w ++ t)).

(* ===================================================================== *)
(** ** The date shapes *)
(* ===================================================================== *)

(** The parts of [DATE_PAT] after parsing. *)
Definition month_alternatives : regex :=
  Eval vm_compute in
    match re_parse MONTH_RE with
    | Ok (SEQ (SUBPATTERN m) EMPTY) => m
    | _ => EMPTY
    end.

Definition digits (lo hi : nat) : regex :=
  MAX_REPEAT lo (Some hi) (IN false [SET_CATEGORY false CATEGORY_DIGIT]).

Definition textual_regex : regex :=
  SEQ (SUBPATTERN month_alternatives)
    (SEQ spaces (SEQ (digits 1 2) (SEQ (LITERAL (ch ","))
       (SEQ spaces (SEQ (digits 4 4) EMPTY))))).

Definition numeric_regex : regex :=
  SEQ (digits 1 2) (SEQ (LITERAL (ch "/")) (SEQ (digits 1 2)
     (SEQ (LITERAL (ch "/")) (SEQ (digits 2 4) EMPTY)))).

Definition year_regex : regex :=
  BRANCH (SEQ (LITERAL (ch "1")) (SEQ (LITERAL (ch "9")) (SEQ (digits 2 2) EMPTY)))
         (SEQ (LITERAL (ch "2")) (SEQ (LITERAL (ch "0")) (SEQ (digits 2 2) EMPTY))).

Definition date_regex : regex :=
  BRANCH (SEQ (SUBPATTERN textual_regex) EMPTY)
    (BRANCH (SEQ (SUBPATTERN numeric_regex) EMPTY)
       (SEQ AT_BOUNDARY (SEQ (SUBPATTERN year_regex) (SEQ AT_BOUNDARY EMPTY)))).

(** The shapes in the words of the specification. Letters and
    punctuation are compared up to case ([ci_equal] under IGNORECASE); a
    digit is a decimal digit of the Unicode data, whitespace is
    [isspace]. *)
Definition month_names : list string := [
  "Jan"; "January"; "Feb"; "February"; "Mar"; "March"; "Apr"; "April";
  "May"; "Jun"; "June"; "Jul"; "July"; "Aug"; "August";
  "Sep"; "Sept"; "September"; "Oct"; "October"; "Nov"; "November";
  "Dec"; "December"
]%string.

Definition all_digits (U : unicode_data) (w : pystr) : Prop :=
  Forall (fun c => isdecimal U c = true) w.

Definition all_space (w : pystr) : Prop :=
  Forall (fun c => isspace c = true) w.

(** A month name, whitespace, a day of one or two digits, a comma,
    whitespace, a year of four digits. *)
Definition textual_date (U : unicode_data) (w : pystr) : Prop :=
  exists name month ws1 day comma ws2 year,
    w = month ++ ws1 ++ day ++ comma ++ ws2 ++ year
    /\ In name month_names /\ ci_equal U true (py name) month
    /\ ws1 <> [] /\ all_space ws1
    /\ 1 <= length day <= 2 /\ all_digits U day
    /\ ci_equal U true (py ",") comma
    /\ ws2 <> [] /\ all_space ws2
    /\ length year = 4 /\ all_digits U year.

(** D{1,2}/D{1,2}/D{2,4}. *)
Definition numeric_date (U : unicode_data) (w : pystr) : Prop :=
  exists a s1 b s2 c,
    w = a ++ s1 ++ b ++ s2 ++ c
    /\ 1 <= length a <= 2 /\ all_digits U a
    /\ ci_equal U true (py "/") s1
    /\ 1 <= length b <= 2 /\ all_digits U b
    /\ ci_equal U true (py "/") s2
    /\ 2 <= length c <= 4 /\ all_digits U c.

(** A year of four digits that begins with 19 or 20. *)
Definition year_word (U : unicode_data) (w : pystr) : Prop :=
  exists century rest,
    w = century ++ rest
    /\ (ci_equal U true (py "19") century \/ ci_equal U true (py "20") century)
    /\ length rest = 2 /\ all_digits U rest.

(** A word boundary between [before] and [after]: exactly one of the
    two characters next to it is a word character. *)
Definition word_boundary (U : unicode_data) (before after : pystr) : Prop :=
  xorb (opt_word U (last before)) (opt_word U (head after)) = true.

(** A line with a date in it: some piece of the line has one of the
    three shapes, the bare year standing as a word of its own. *)
Definition date_like (U : unicode_data) (line : pystr) : Prop :=
  exists pre w post,
    line = pre ++ w ++ post
    /\ (textual_date U w
        \/ numeric_date U w
        \/ (year_word U w
            /\ word_boundary U pre (w ++ post)
            /\ word_boundary U (pre ++ w) post)).

(** The number four decimal digits of ASCII write. *)
Definition year_value (w : pystr) : N :=
  fold_left (fun n c => (10 * n + (c - 48))%N) w 0%N.


(** The test of the loop of the Entry Filter on one line. *)
Definition keeps (U : unicode_data) (ln : pystr) : bool :=
  negb (length ln <? 10) && Pattern_search U DATE_PAT ln.


(* ===================================================================== *)
(** ** Further notions for the stages *)
(* ===================================================================== *)

(** The characters of [s] that are not whitespace, in order. *)
Definition visible (s : pystr) : pystr :=
  List.filter (fun c => negb (isspace c)) s.

(** The only whitespace of [s] is the space U+0020. *)
Definition only_spaces (s : pystr) : Prop :=
  forall c, In c s -> isspace c = true -> c = 32%N.

(** A line in the form [clean] gives it. *)
Definition canonical (line : pystr) : Prop :=
  normalized line /\ only_spaces line.

(** A link to an article of the encyclopedia: some piece of the href is
    "wikipedia.org/wiki/" up to case. *)
Definition wiki_like (U : unicode_data) (href : pystr) : Prop :=
  exists pre w post,
    href = pre ++ w ++ post /\ ci_equal U true (py "wikipedia.org/wiki/") w.

(** A character of a token. *)
Definition token_char (c : N) : bool := is_lower_alnum c || eqc "_" c.

(** No fetched page of [urls] has a line that the Entry Filter keeps. *)
Definition pages_without_entries (U : unicode_data) (E : environment)
    (urls : list pystr) : Prop :=
  forall u html,
    In u urls -> fetch_html E u = Ok html ->
    keep_lines U (lines_of E html) = [].

(** [b] is the block of source [u]: its [ERROR] block when the fetch
    fails, its [DEBUG] block when the page has no kept line. *)
Definition is_block (U : unicode_data) (E : environment) (u : pystr)
    (b : list pystr) : Prop :=
  (exists e, fetch_html E u = Raise e /\ b = error_block u e)
  \/ (exists html, fetch_html E u = Ok html
                   /\ keep_lines U (lines_of E html) = []
                   /\ b = debug_block u (lines_of E html)).


(** The database restricted to Latin-1: exact below code point 256,
    every other code point caseless and neither digit nor letter. The
    upper case of 223 is the first character of its full upper case, as
    [re] takes it. *)
Definition between (lo hi c : N) : bool := ((lo <=? c) && (c <=? hi))%N.

Definition latin_1_isalnum (c : N) : bool :=
  between 48 57 c || between 65 90 c || between 97 122 c
  || (c =? 170)%N || between 178 179 c || (c =? 181)%N
  || between 185 186 c || between 188 190 c
  || between 192 214 c || between 216 246 c || between 248 255 c.

Definition latin_1_tolower (c : N) : N :=
  if between 65 90 c || between 192 214 c || between 216 222 c
  then (c + 32)%N else c.

Definition latin_1_toupper (c : N) : N :=
  if between 97 122 c || between 224 246 c || between 248 254 c
  then (c - 32)%N
  else if (c =? 181)%N then 924%N
  else if (c =? 223)%N then 83%N
  else if (c =? 255)%N then 376%N
  else c.

Definition latin_1_data : unicode_data := {|
  isdecimal := ascii_isdigit;
  isalnum := latin_1_isalnum;
  tolower := latin_1_tolower;
  toupper := latin_1_toupper;
  casefix := fun c =>
    if (c =? 105)%N then [305%N]
    else if (c =? 115)%N then [383%N]
    else if (c =? 181)%N then [956%N]
    else [];
  str_lower := List.map latin_1_tolower
|}.

(** The token with "alphanumeric" taken as the Unicode data has it
    ([str.isalnum]): lower case, every run of characters that are not
    alphanumeric replaced by one underscore, underscores trimmed. *)
Definition token_by_isalnum (U : unicode_data) (name : pystr) : pystr :=
  strip_by (eqc "_")
    (collapse (fun c => negb (isalnum U c)) (py "_") false
       (str_lower U name)).


(* ===================================================================== *)
(** * Properties *)
(* ===================================================================== *)

(** ** The patterns of the script *)

Lemma DATE_PAT_compiles : re_compile DATE_PAT_source true = Ok DATE_PAT.
Proof. vm_compute. reflexivity. Qed.

Lemma WIKI_PAT_compiles : re_compile WIKI_PAT_source true = Ok WIKI_PAT.
Proof. vm_compute. reflexivity. Qed.

Lemma spaces_compiles :
  re_compile (py "\s+") false
  = Ok {| pat_regex := SEQ spaces EMPTY; pat_ignorecase := false |}.
Proof. vm_compute. reflexivity. Qed.

Lemma not_lower_alnum_compiles :
  re_compile (py "[^a-z0-9]+") false
  = Ok {| pat_regex := SEQ not_lower_alnum EMPTY; pat_ignorecase := false |}.
Proof. vm_compute. reflexivity. Qed.

(** The pattern of the split in [main], as the raw literal of the source
    has it: each of the two doubled backslashes is a literal backslash,
    so the parenthesis after the first opens a group and the bracket
    after the second opens a set that the pattern never closes. *)
Lemma split_pattern_error :
  re_compile (py "[-–—]|\\(|\\[") false
  = Raise (re_error (py "unterminated character set") 12).
Proof. vm_compute. reflexivity. Qed.

(** With single backslashes the same pattern compiles and splits. *)
Example split_pattern_single_backslash :
  re_split_1 basic_latin (py "[-–—]|\(|\[")
             (py "Jane Q. Public - March 4, 1977, Ohio")
  = Ok [py "Jane Q. Public "; py " March 4, 1977, Ohio"].
Proof. vm_compute. reflexivity. Qed.

(** No pattern of the script leaves the modelled syntax. *)
Lemma patterns_inside_model :
  Forall (fun c : result Pattern => c <> Raise OutsideModel)
    [re_compile DATE_PAT_source true; re_compile WIKI_PAT_source true;
     re_compile (py "\s+") false; re_compile (py "[^a-z0-9]+") false;
     re_compile (py "[-–—]|\\(|\\[") false].
Proof. repeat constructor; vm_compute; discriminate. Qed.

Lemma name_guess_error (U : unicode_data) (ln : pystr) :
  name_guess U ln = Raise (re_error (py "unterminated character set") 12).
Proof.
  unfold name_guess, re_split_1. rewrite split_pattern_error. reflexivity.
Qed.

Lemma format_entry_error (U : unicode_data) (links : list pystr) (ln : pystr) :
  format_entry U links ln
  = Raise (re_error (py "unterminated character set") 12).
Proof. unfold format_entry. rewrite name_guess_error. reflexivity. Qed.

Lemma write_entries_error U links ln kept st :
  write_entries U links (ln :: kept) st
  = Raise (re_error (py "unterminated character set") 12).
Proof.
  destruct st as [out total]. cbn [write_entries].
  rewrite format_entry_error. reflexivity.
Qed.

(* ===================================================================== *)
(** ** Repeats of a character class *)
(* ===================================================================== *)

Section ClassRepeat.
Variable U : unicode_data.
Variable ic : bool.
Variable test : N -> bool.

Lemma repeat_may_class (body : matcher) (k : cursor -> option cursor) :
  (forall k' p, body k' p = step_char test k' p) ->
  (forall q, k q = Some q) ->
  forall n prev s, length s <= n ->
    repeat_may body k n (prev, s) = Some (skip_run test prev s).
Proof.
  intros Hbody Hk n. induction n as [|n IH]; intros prev s Hlen.
  - destruct s; simpl in *; [apply Hk | lia].
  - simpl. rewrite Hbody. destruct s as [|c t]; simpl.
    + apply Hk.
    + unfold step_char. simpl. destruct (test c).
      * unfold advance. rewrite IH by (simpl in Hlen; lia). reflexivity.
      * apply Hk.
Qed.

Lemma skip_run_length prev s :
  length (rest (skip_run test prev s)) = length s - run_length test s.
Proof.
  revert prev. induction s as [|c t IH]; intros prev; simpl; [reflexivity|].
  destruct (test c); simpl; [apply IH | reflexivity].
Qed.

Lemma run_length_le s : run_length test s <= length s.
Proof. induction s as [|c t IH]; simpl; [lia|]. destruct (test c); simpl; lia. Qed.

(** One or more characters of a set, then the end of the pattern: the
    match, when there is one, is the longest run. *)
Lemma rmatch_class_plus negate items prev s :
  (forall c, set_match U negate items c = test c) ->
  rmatch U ic (SEQ (MAX_REPEAT 1 None (IN negate items)) EMPTY) Some (prev, s)
  = match s with
    | c :: t => if test c then Some (skip_run test (Some c) t) else None
    | [] => None
    end.
Proof.
  intros Htest.
  assert (Hbody : forall k' p,
             step_char (set_match U negate items) k' p = step_char test k' p).
  { intros k' p. unfold step_char.
    destruct (rest p) as [|c t]; [reflexivity|]. rewrite Htest. reflexivity. }
  cbn [rmatch repeat_must]. rewrite Hbody.
  unfold step_char at 1. cbn [rest snd].
  destruct s as [|c t]; [reflexivity|].
  destruct (test c) eqn:Hc; [|reflexivity].
  unfold advance. apply repeat_may_class; [exact Hbody | reflexivity |].
  simpl. lia.
Qed.

Lemma sub_loop_class_plus negate items repl :
  (forall c, set_match U negate items c = test c) ->
  forall s prev,
    sub_loop U ic (SEQ (MAX_REPEAT 1 None (IN negate items)) EMPTY)
             repl 0 prev s
    = collapse test repl false s
    /\ sub_loop U ic (SEQ (MAX_REPEAT 1 None (IN negate items)) EMPTY)
                repl (run_length test s) prev s
       = collapse test repl true s.
Proof.
  intros Htest s.
  induction s as [|c t IH]; intros prev.
  - cbn [sub_loop run_length collapse].
    rewrite rmatch_class_plus by exact Htest. split; reflexivity.
  - assert (H0 : sub_loop U ic (SEQ (MAX_REPEAT 1 None (IN negate items)) EMPTY)
                          repl 0 prev (c :: t)
                 = collapse test repl false (c :: t)).
    { cbn [sub_loop]. rewrite rmatch_class_plus by exact Htest.
      cbn [collapse]. destruct (test c) eqn:Hc.
      - rewrite skip_run_length.
        pose proof (run_length_le t) as Hle.
        replace (length (c :: t) - (length t - run_length test t))
          with (S (run_length test t)) by (simpl; lia).
        destruct (IH (Some c)) as [_ ->]. reflexivity.
      - destruct (IH (Some c)) as [-> _]. reflexivity. }
    split; [exact H0|].
    cbn [run_length]. destruct (test c) eqn:Hc.
    + cbn [sub_loop collapse]. rewrite Hc.
      destruct (IH (Some c)) as [_ ->]. reflexivity.
    + rewrite H0. cbn [collapse]. rewrite Hc. reflexivity.
Qed.
End ClassRepeat.

Lemma re_sub_spaces (U : unicode_data) (s : pystr) :
  re_sub U (py "\s+") (py " ") s = Ok (collapse isspace (py " ") false s).
Proof.
  unfold re_sub. rewrite spaces_compiles.
  cbn [mbind result_bind pat_regex nullable spaces andb].
  f_equal. unfold spaces.
  apply (sub_loop_class_plus U false isspace false
           [SET_CATEGORY false CATEGORY_SPACE]).
  intros c. cbn. destruct (isspace c); reflexivity.
Qed.

Lemma re_sub_not_lower_alnum (U : unicode_data) (s : pystr) :
  re_sub U (py "[^a-z0-9]+") (py "_") s
  = Ok (collapse (fun c => negb (is_lower_alnum c)) (py "_") false s).
Proof.
  unfold re_sub. rewrite not_lower_alnum_compiles.
  cbn [mbind result_bind pat_regex nullable not_lower_alnum andb].
  f_equal. unfold not_lower_alnum.
  apply (sub_loop_class_plus U false (fun c => negb (is_lower_alnum c)) true
           [SET_RANGE 97 122; SET_RANGE 48 57]).
  intros c. unfold set_match, is_lower_alnum, ascii_islower, ascii_isdigit.
  cbn. rewrite orb_false_r. reflexivity.
Qed.

(* ===================================================================== *)
(** ** Stripping and collapsing *)
(* ===================================================================== *)

Lemma lstrip_by_split test s :
  exists pre, s = pre ++ lstrip_by test s.
Proof.
  induction s as [|c t [pre IH]]; simpl.
  - exists []. reflexivity.
  - destruct (test c).
    + exists (c :: pre). simpl. rewrite <- IH. reflexivity.
    + exists []. reflexivity.
Qed.

Lemma lstrip_by_head test s c :
  head (lstrip_by test s) = Some c -> test c = false.
Proof.
  induction s as [|d t IH]; simpl; [discriminate|].
  destruct (test d) eqn:Hd; [exact IH|].
  simpl. intros [= <-]. exact Hd.
Qed.

(** What is left of [s] after a strip is a piece of [s]. *)
Lemma strip_by_infix test s :
  exists a b, s = a ++ strip_by test s ++ b.
Proof.
  unfold strip_by.
  destruct (lstrip_by_split test s) as [a Ha].
  destruct (lstrip_by_split test (rev (lstrip_by test s))) as [b Hb].
  exists a, (rev b). rewrite <- rev_app_distr, <- Hb, rev_involutive. exact Ha.
Qed.

Lemma last_rev_head {A} (l : list A) : last (rev l) = head l.
Proof.
  destruct l as [|x l]; [reflexivity|]. simpl. apply last_snoc.
Qed.

Lemma strip_by_last test s c :
  last (strip_by test s) = Some c -> test c = false.
Proof.
  unfold strip_by. rewrite last_rev_head. apply lstrip_by_head.
Qed.

Lemma strip_by_head test s c :
  head (strip_by test s) = Some c -> test c = false.
Proof.
  unfold strip_by. intros H.
  destruct (lstrip_by_split test (rev (lstrip_by test s))) as [b Hb].
  set (m := lstrip_by test (rev (lstrip_by test s))) in *.
  assert (Hs : lstrip_by test s = rev m ++ rev b).
  { rewrite <- rev_app_distr, <- Hb, rev_involutive. reflexivity. }
  apply (lstrip_by_head test s). rewrite Hs.
  destruct (rev m) as [|x l]; [discriminate|]. exact H.
Qed.

Lemma no_double_infix test a m b :
  no_double test (a ++ m ++ b) -> no_double test m.
Proof.
  intros H l1 x y l2 ->. apply (H (a ++ l1) x y (l2 ++ b)).
  rewrite <- !app_assoc. reflexivity.
Qed.

Lemma spaced_no_double test s pw :
  spaced test pw s = true -> no_double test s.
Proof.
  revert pw. induction s as [|c t IH]; intros pw H l1 a b l2 E Ha.
  - destruct l1; discriminate.
  - destruct l1 as [|x l1]; simpl in E; injection E as -> ->.
    + simpl in H. rewrite Ha in H. apply andb_true_iff in H as [_ H].
      destruct (test b); [discriminate | reflexivity].
    + simpl in H. destruct (test x).
      * apply andb_true_iff in H as [_ H]. eapply IH; eauto.
      * eapply IH; eauto.
Qed.

Lemma collapse_spaced test x s pw inrun :
  test x = true -> (pw = true -> inrun = true) ->
  spaced test pw (collapse test [x] inrun s) = true.
Proof.
  intros Hx. revert pw inrun.
  induction s as [|c t IH]; intros pw inrun Hpw; simpl; [reflexivity|].
  destruct (test c) eqn:Hc.
  - destruct inrun; simpl.
    + apply IH. reflexivity.
    + rewrite Hx. destruct pw; [discriminate (Hpw eq_refl)|]. simpl.
      apply IH. reflexivity.
  - simpl. rewrite Hc. apply IH. discriminate.
Qed.

Lemma collapse_no_double test x s :
  test x = true -> no_double test (collapse test [x] false s).
Proof.
  intros Hx. apply (spaced_no_double test _ false).
  apply collapse_spaced; [exact Hx | discriminate].
Qed.

(* ===================================================================== *)
(** ** The Normalizer *)
(* ===================================================================== *)

Lemma clean_total (U : unicode_data) (s : pystr) :
  clean U s = Ok (clean_text s).
Proof. unfold clean. rewrite re_sub_spaces. reflexivity. Qed.

Lemma clean_text_normalized s :
  clean_text s <> [] -> normalized (clean_text s).
Proof.
  intros Hne. unfold clean_text, strip in *. repeat split.
  - exact Hne.
  - apply strip_by_head.
  - apply strip_by_last.
  - destruct (strip_by_infix isspace (collapse isspace (py " ") false s))
      as (a & b & Hab).
    apply (no_double_infix isspace a _ b). rewrite <- Hab.
    apply (collapse_no_double isspace 32%N). reflexivity.
Qed.

Example clean_text_example :
  clean_text (py "   Jane   Q.	Public  ") = py "Jane Q. Public"
  /\ clean_text (py "  	 ") = [].
Proof. vm_compute. split; reflexivity. Qed.

Lemma clean_lines_total (U : unicode_data) (segments : list pystr) :
  clean_lines U segments
  = Ok (List.filter truthy (List.map clean_text segments)).
Proof.
  induction segments as [|x xs IH]; [reflexivity|].
  cbn [clean_lines List.map List.filter]. rewrite clean_total.
  cbn [mbind result_bind]. destruct (truthy (clean_text x)).
  - rewrite IH. reflexivity.
  - exact IH.
Qed.

Lemma filter_sublist {A} (f : A -> bool) (l : list A) :
  sublist (List.filter f l) l.
Proof.
  induction l as [|x l IH]; simpl; [constructor|].
  destruct (f x); [apply sublist_skip | apply sublist_cons]; exact IH.
Qed.

Lemma page_lines_total (U : unicode_data) (E : environment) (html : pystr) :
  page_lines U E html
  = Ok (List.filter truthy
          (List.map clean_text (split_char 10 (soup_get_text E html)))).
Proof. apply clean_lines_total. Qed.

(** C5. For every page, the Normalizer returns (it raises nothing); every
    line it emits is non-empty, begins and ends with a character that is
    not whitespace, and has no two neighbouring whitespace characters; and
    the lines are, in the order of the document, the non-empty ones among
    the cleaned segments of the page text between newlines. *)
Theorem C5_normalizer_lines (U : unicode_data) (E : environment) (html : pystr) :
  exists lines,
    page_lines U E html = Ok lines
    /\ Forall normalized lines
    /\ sublist lines
         (List.map clean_text (split_char 10 (soup_get_text E html)))
    /\ (forall ln, In ln lines <->
          ln <> [] /\
          In ln (List.map clean_text (split_char 10 (soup_get_text E html)))).
Proof.
  eexists. split; [apply page_lines_total|].
  set (segs := List.map clean_text (split_char 10 (soup_get_text E html))).
  split; [|split].
  - apply List.Forall_forall. intros ln Hin.
    apply filter_In in Hin as [Hin Ht].
    apply in_map_iff in Hin as (x & <- & _).
    apply clean_text_normalized. intros E0. rewrite E0 in Ht. discriminate.
  - apply filter_sublist.
  - intros ln. rewrite filter_In. split.
    + intros [Hin Ht]. split; [|exact Hin]. intros ->. discriminate.
    + intros [Hne Hin]. split; [exact Hin|]. destruct ln; [congruence|reflexivity].
Qed.

(* ===================================================================== *)
(** ** The Entry Formatter *)
(* ===================================================================== *)

(** C1. [name_guess] never yields a name: the pattern of its split does
    not compile, so the call raises [re.error] on every line, and on the
    line of the specification's example in particular, where
    "Jane Q. Public" was expected. *)
Theorem C1_name_guess_raises :
  name_guess basic_latin (py "Jane Q. Public - March 4, 1977, Ohio")
  = Raise (re_error (py "unterminated character set") 12)
  /\ exn_str (re_error (py "unterminated character set") 12)
     = py "unterminated character set at position 12"
  /\ forall U ln,
       name_guess U ln = Raise (re_error (py "unterminated character set") 12).
Proof.
  split; [apply name_guess_error|]. split; [reflexivity|].
  intros U ln. apply name_guess_error.
Qed.

(** C2. The Entry Formatter is not total: it raises [re.error] for every
    filtered line and every link collection, and so does the turn of the
    source loop for a page with a date-like line. *)
Theorem C2_format_entry_raises :
  (forall U wiki_links ln,
     format_entry U wiki_links ln
     = Raise (re_error (py "unterminated character set") 12))
  /\ source_step basic_latin
       (plain_env (respond 200 (py "OK") "Jane Q. Public - March 4, 1977, Ohio"))
       (py "https://www.seeing-stars.com/Died/70s.shtml") ([], 0)
     = Raise (re_error (py "unterminated character set") 12).
Proof.
  split; [intros; apply format_entry_error|]. vm_compute. reflexivity.
Qed.

(* ===================================================================== *)
(** ** Link association *)
(* ===================================================================== *)

Lemma lstrip_by_ext t1 t2 s :
  (forall c, t1 c = t2 c) -> lstrip_by t1 s = lstrip_by t2 s.
Proof.
  intros H. induction s as [|c t IH]; simpl; [reflexivity|].
  rewrite H, IH. reflexivity.
Qed.

Lemma strip_by_ext t1 t2 s :
  (forall c, t1 c = t2 c) -> strip_by t1 s = strip_by t2 s.
Proof.
  intros H. unfold strip_by.
  rewrite (lstrip_by_ext t1 t2 s H).
  rewrite (lstrip_by_ext t1 t2 _ H). reflexivity.
Qed.

Lemma name_token_total (U : unicode_data) (name : pystr) :
  name_token U name = Ok (token_of U name).
Proof.
  unfold name_token, token_of. rewrite re_sub_not_lower_alnum.
  cbn [mbind result_bind]. f_equal. unfold strip_chars.
  apply strip_by_ext. intros c. cbn. unfold eqc, ch. cbn.
  apply orb_false_r.
Qed.

Lemma startswith_spec p s :
  startswith p s = true <-> exists b, s = p ++ b.
Proof.
  revert s. induction p as [|x p IH]; intros s; simpl.
  - split; [intros _; exists s; reflexivity | reflexivity].
  - destruct s as [|c t].
    + split; [discriminate | intros [b Hb]; discriminate].
    + rewrite andb_true_iff, N.eqb_eq, IH. split.
      * intros [-> [b ->]]. exists b. reflexivity.
      * intros [b [= -> ->]]. split; [reflexivity | exists b; reflexivity].
Qed.

Lemma contains_spec needle hay :
  contains needle hay = true <-> substring needle hay.
Proof.
  unfold substring. induction hay as [|c t IH].
  - simpl. rewrite orb_false_r, startswith_spec. split.
    + intros [b Hb]. exists [], b. exact Hb.
    + intros (a & b & H). destruct a as [|x a]; [|discriminate].
      exists b. exact H.
  - cbn [contains]. rewrite orb_true_iff, startswith_spec, IH. split.
    + intros [[b Hb] | (a & b & Hab)].
      * exists [], b. exact Hb.
      * exists (c :: a), b. simpl. rewrite Hab. reflexivity.
    + intros (a & b & H). destruct a as [|x a].
      * left. exists b. exact H.
      * right. injection H as -> H. exists a, b. exact H.
Qed.

Lemma has_token_test U token w :
  truthy token && contains token (str_lower U w) = true <-> has_token U token w.
Proof.
  unfold has_token. rewrite andb_true_iff, contains_spec.
  destruct token; simpl; split; intros [H1 H2]; split;
    congruence || assumption || reflexivity.
Qed.

Lemma wiki_guess_first U token l1 w l2 :
  (forall v, In v l1 -> ~ has_token U token v) ->
  has_token U token w ->
  wiki_guess U token (l1 ++ w :: l2) = w.
Proof.
  intros Hno Hw. induction l1 as [|v l1 IH]; simpl.
  - apply has_token_test in Hw. rewrite Hw. reflexivity.
  - destruct (truthy token && contains token (str_lower U v)) eqn:Hv.
    + apply has_token_test in Hv. destruct (Hno v); [left; reflexivity | exact Hv].
    + apply IH. intros x Hx. apply Hno. right. exact Hx.
Qed.

Lemma wiki_guess_none U token links :
  (forall v, In v links -> ~ has_token U token v) ->
  wiki_guess U token links = [].
Proof.
  intros Hno. induction links as [|v l IH]; simpl; [reflexivity|].
  destruct (truthy token && contains token (str_lower U v)) eqn:Hv.
  - apply has_token_test in Hv. destruct (Hno v); [left; reflexivity | exact Hv].
  - apply IH. intros x Hx. apply Hno. right. exact Hx.
Qed.

(** C6 (as amended). The token of a name is its lower case with every
    run of characters other than a-z and 0-9 (not: every run of
    non-alphanumeric characters) replaced by one underscore and the
    underscores trimmed at both ends; the link attached is the first
    link, in the order of the collection, whose lower case has the token
    as a substring; there is no link (the empty string) when the token is
    empty or when no link has it. *)
Theorem C6_wikipedia_link (U : unicode_data) (name : pystr) (wiki_links : list pystr) :
  name_token U name = Ok (token_of U name)
  /\ (forall l1 w l2,
        wiki_links = l1 ++ w :: l2 ->
        (forall v, In v l1 -> ~ has_token U (token_of U name) v) ->
        has_token U (token_of U name) w ->
        wiki_guess U (token_of U name) wiki_links = w)
  /\ ((forall v, In v wiki_links -> ~ has_token U (token_of U name) v) ->
      wiki_guess U (token_of U name) wiki_links = [])
  /\ (token_of U name = [] -> wiki_guess U (token_of U name) wiki_links = []).
Proof.
  split; [apply name_token_total|]. split; [|split].
  - intros l1 w l2 -> Hno Hw. apply wiki_guess_first; assumption.
  - apply wiki_guess_none.
  - intros He. apply wiki_guess_none. intros v _ [Hne _]. apply Hne, He.
Qed.

(** The example of the specification: the token of "Jane Q. Public" is
    "jane_q_public"; the link of the example, in lower case, has
    "jane_q._public", so the token is not in it and nothing is attached. A
    link without the dot is attached. *)
Example token_jane_q_public :
  token_of basic_latin (py "Jane Q. Public") = py "jane_q_public"
  /\ wiki_guess basic_latin (py "jane_q_public")
       [py "https://en.wikipedia.org/wiki/Jane_Q._Public"] = []
  /\ wiki_guess basic_latin (py "jane_q_public")
       [py "https://en.wikipedia.org/wiki/Ohio";
        py "https://en.wikipedia.org/wiki/Jane_Q_Public"]
     = py "https://en.wikipedia.org/wiki/Jane_Q_Public".
Proof. vm_compute. repeat split. Qed.

(* ===================================================================== *)
(** ** The Fetcher *)
(* ===================================================================== *)

Lemma latin_1_never_fails (E : environment) (bs : list byte) :
  bytes_decode E (py "latin-1") bs = Ok (latin_1_decode bs).
Proof. reflexivity. Qed.

(** C8. Decoding the body of a response never raises: the declared
    encoding (or the sniffed one, or utf-8) is tried first, and when that
    attempt raises anything, an unknown codec name included, the text is
    the latin-1 decoding of the bytes, which never fails. *)
Theorem C8_decode_never_raises (E : environment) (r : Response) :
  exists text,
    decode_body E r = Ok text
    /\ (bytes_decode E
          (or_else (encoding r) (or_else (apparent_encoding r) (py "utf-8")))
          (content r) = Ok text
        \/ ((exists e,
               bytes_decode E
                 (or_else (encoding r)
                    (or_else (apparent_encoding r) (py "utf-8")))
                 (content r) = Raise e)
            /\ text = latin_1_decode (content r)))
    /\ bytes_decode E (py "latin-1") (content r)
       = Ok (latin_1_decode (content r)).
Proof.
  unfold decode_body.
  destruct (bytes_decode E _ (content r)) as [text|e] eqn:Hd.
  - exists text. split; [reflexivity|]. split; [left; reflexivity|].
    apply latin_1_never_fails.
  - exists (latin_1_decode (content r)).
    split; [apply latin_1_never_fails|].
    split; [right; split; [exists e|]; reflexivity|].
    apply latin_1_never_fails.
Qed.

Example decode_unknown_codec :
  decode_body (plain_env refused)
    {| status_code := 200; reason := py "OK"; url := [];
       content := [x48; xe9]%byte;
       encoding := Some (py "x-unknown"); apparent_encoding := None |}
  = Ok [72; 233]%N.
Proof. vm_compute. reflexivity. Qed.

Lemma fetch_fails_raises (E : environment) (u : pystr) :
  fetch_fails E u -> exists e, fetch_html E u = Raise e.
Proof.
  unfold fetch_html. intros [[e He] | (r & Hr & Hs)]; rewrite ?He, ?Hr.
  - exists e. reflexivity.
  - cbn [mbind result_bind]. unfold raise_for_status.
    destruct ((400 <=? status_code r) && (status_code r <? 500))%N eqn:H4.
    + eexists. reflexivity.
    + destruct ((500 <=? status_code r) && (status_code r <? 600))%N eqn:H5.
      * eexists. reflexivity.
      * exfalso. apply andb_false_iff in H4, H5.
        rewrite !N.leb_gt, !N.ltb_ge in *. lia.
Qed.

(* ===================================================================== *)
(** ** The orchestrator *)
(* ===================================================================== *)

Lemma source_step_error U E u e out total :
  fetch_html E u = Raise e ->
  source_step U E u (out, total) = Ok (out ++ error_block u e, total).
Proof.
  intros H. unfold source_step, error_block, source_head. rewrite H.
  rewrite <- app_assoc. reflexivity.
Qed.

Lemma source_step_debug U E u html out total :
  fetch_html E u = Ok html ->
  keep_lines U (lines_of E html) = [] ->
  source_step U E u (out, total)
  = Ok (out ++ debug_block u (lines_of E html), total).
Proof.
  intros H Hk. unfold source_step, debug_block, source_head. rewrite H.
  rewrite page_lines_total. cbn [mbind result_bind].
  fold (lines_of E html). rewrite Hk. rewrite <- !app_assoc. reflexivity.
Qed.

Lemma source_step_entries U E u html out total :
  fetch_html E u = Ok html ->
  keep_lines U (lines_of E html) <> [] ->
  source_step U E u (out, total)
  = Raise (re_error (py "unterminated character set") 12).
Proof.
  intros H Hk. unfold source_step. rewrite H.
  rewrite page_lines_total. cbn [mbind result_bind].
  fold (lines_of E html).
  destruct (keep_lines U (lines_of E html)) as [|ln kept]; [congruence|].
  rewrite write_entries_error. reflexivity.
Qed.

Lemma count_prefixed_app p a b :
  count_prefixed p (a ++ b) = count_prefixed p a + count_prefixed p b.
Proof. unfold count_prefixed. rewrite List.filter_app, List.length_app. reflexivity. Qed.

Lemma count_prefixed_raw_all lines :
  count_prefixed (py "- RAW:") (List.map (fun ln => py "- RAW: " ++ ln) lines)
  = length lines.
Proof.
  unfold count_prefixed. induction lines as [|ln l IH]; [reflexivity|].
  cbn [List.map List.filter].
  replace (startswith (py "- RAW:") (py "- RAW: " ++ ln)) with true
    by (vm_compute; reflexivity).
  cbv iota. cbn [length]. rewrite IH. reflexivity.
Qed.

Lemma count_prefixed_raw_none p lines :
  (forall ln, startswith p (py "- RAW: " ++ ln) = false) ->
  count_prefixed p (List.map (fun ln => py "- RAW: " ++ ln) lines) = 0.
Proof.
  intros H. unfold count_prefixed. induction lines as [|ln l IH]; [reflexivity|].
  cbn [List.map List.filter]. rewrite H. exact IH.
Qed.

(** C4 (as amended). When the fetch of a source fails, that is when
    [requests.get] raises or the response has a 4xx or 5xx status, the
    turn of the loop raises nothing: it appends the three header lines of
    the source, one [ERROR] line that carries the text of the exception
    and one empty line, leaves the entry counter as it was, and the loop
    goes on with the next URL. The block has exactly one [ERROR] line and
    no entry. *)
Theorem C4_fetch_failure_isolated
    (U : unicode_data) (E : environment) (u : pystr) (rest : list pystr)
    (out : list pystr) (total : nat) :
  fetch_fails E u ->
  exists e,
    fetch_html E u = Raise e
    /\ source_step U E u (out, total) = Ok (out ++ error_block u e, total)
    /\ source_loop U E (u :: rest) (out, total)
       = source_loop U E rest (out ++ error_block u e, total)
    /\ error_block u e
       = source_head u ++ [py "[ERROR] Could not fetch page: " ++ exn_str e; []]
    /\ count_prefixed (py "[ERROR]") (error_block u e) = 1
    /\ count_prefixed (py "- Name:") (error_block u e) = 0.
Proof.
  intros Hf. destruct (fetch_fails_raises E u Hf) as [e He].
  exists e. split; [exact He|].
  split; [apply source_step_error; exact He|].
  split.
  { cbn [source_loop]. rewrite (source_step_error U E u e out total He).
    reflexivity. }
  split; [reflexivity|].
  split; vm_compute; reflexivity.
Qed.

Lemma C4_fetch_failure_isolated_witness :
  fetch_fails (plain_env refused) (py "https://www.seeing-stars.com/Died/90s.shtml")
  /\ exists e,
       fetch_html (plain_env refused)
         (py "https://www.seeing-stars.com/Died/90s.shtml") = Raise e
       /\ source_step basic_latin (plain_env refused)
            (py "https://www.seeing-stars.com/Died/90s.shtml") ([], 0)
          = Ok ([] ++ error_block
                        (py "https://www.seeing-stars.com/Died/90s.shtml") e, 0).
Proof.
  assert (Hf : fetch_fails (plain_env refused)
                 (py "https://www.seeing-stars.com/Died/90s.shtml")).
  { left. eexists. reflexivity. }
  split; [exact Hf|].
  destruct (C4_fetch_failure_isolated basic_latin (plain_env refused)
              (py "https://www.seeing-stars.com/Died/90s.shtml") [] [] 0 Hf)
    as (e & H1 & H2 & _).
  exists e. split; [exact H1 | exact H2].
Defined.

(** C4 as stated fails on a status that is not 2xx and that
    [raise_for_status] lets through: a 304 response counts as a failed
    fetch in the words of the specification, yet the page is processed (its
    empty body gives the [DEBUG] block) and the buffer gets no [ERROR]
    line. *)
Lemma C4_counterexample_status_304 :
  fetch_fails_non_2xx
    (plain_env (respond 304 (py "Not Modified") ""))
    (py "https://www.seeing-stars.com/Died/90s.shtml")
  /\ source_step basic_latin
       (plain_env (respond 304 (py "Not Modified") ""))
       (py "https://www.seeing-stars.com/Died/90s.shtml") ([], 0)
     = Ok (debug_block (py "https://www.seeing-stars.com/Died/90s.shtml") [], 0)
  /\ count_prefixed (py "[ERROR]")
       (debug_block (py "https://www.seeing-stars.com/Died/90s.shtml") []) = 0.
Proof.
  split.
  - right. eexists. split; [reflexivity|]. cbn. lia.
  - split; vm_compute; reflexivity.
Qed.

(** C7. When a page is fetched and the Entry Filter keeps none of its
    lines, the turn of the loop raises nothing: it appends the header
    lines of the source, one [DEBUG] line, the first 200 normalized lines
    at most, each behind "- RAW: ", and an empty line; the block has no
    entry, the entry counter is as it was, and the loop goes on with the
    next URL. *)
Theorem C7_empty_page_debug_block
    (U : unicode_data) (E : environment) (u html : pystr) (rest : list pystr)
    (out : list pystr) (total : nat) :
  fetch_html E u = Ok html ->
  keep_lines U (lines_of E html) = [] ->
  page_lines U E html = Ok (lines_of E html)
  /\ source_step U E u (out, total)
     = Ok (out ++ debug_block u (lines_of E html), total)
  /\ source_loop U E (u :: rest) (out, total)
     = source_loop U E rest (out ++ debug_block u (lines_of E html), total)
  /\ count_prefixed (py "[DEBUG]") (debug_block u (lines_of E html)) = 1
  /\ count_prefixed (py "- RAW:") (debug_block u (lines_of E html))
     = Nat.min 200 (length (lines_of E html))
  /\ count_prefixed (py "- RAW:") (debug_block u (lines_of E html)) <= 200
  /\ count_prefixed (py "- Name:") (debug_block u (lines_of E html)) = 0.
Proof.
  intros Hf Hk.
  assert (Hraw : count_prefixed (py "- RAW:") (debug_block u (lines_of E html))
                 = Nat.min 200 (length (lines_of E html))).
  { unfold debug_block. rewrite !count_prefixed_app, count_prefixed_raw_all.
    rewrite length_take.
    replace (count_prefixed (py "- RAW:") (source_head u)) with 0
      by (vm_compute; reflexivity).
    replace (count_prefixed (py "- RAW:") [[]]) with 0 by reflexivity.
    match goal with
    | |- context [count_prefixed ?p [?x]] =>
        replace (count_prefixed p [x]) with 0 by (vm_compute; reflexivity)
    end.
    cbn [Nat.add]. rewrite Nat.add_0_r. reflexivity. }
  split; [apply page_lines_total|].
  split; [apply source_step_debug; assumption|].
  split.
  { cbn [source_loop].
    rewrite (source_step_debug U E u html out total Hf Hk). reflexivity. }
  split.
  { unfold debug_block. rewrite !count_prefixed_app.
    rewrite count_prefixed_raw_none by (intros; vm_compute; reflexivity).
    vm_compute. reflexivity. }
  split; [exact Hraw|].
  split; [rewrite Hraw; lia|].
  unfold debug_block. rewrite !count_prefixed_app.
  rewrite count_prefixed_raw_none by (intros; vm_compute; reflexivity).
  vm_compute. reflexivity.
Qed.

Lemma C7_empty_page_debug_block_witness :
  fetch_html (plain_env (respond 200 (py "OK") "Nothing  here
at all"))
    (py "https://www.seeing-stars.com/Died/60s.shtml")
  = Ok (py "Nothing  here
at all")
  /\ source_step basic_latin
       (plain_env (respond 200 (py "OK") "Nothing  here
at all"))
       (py "https://www.seeing-stars.com/Died/60s.shtml") ([], 7)
     = Ok ([] ++ debug_block (py "https://www.seeing-stars.com/Died/60s.shtml")
                   [py "Nothing here"; py "at all"], 7).
Proof.
  split; [vm_compute; reflexivity|].
  apply (C7_empty_page_debug_block basic_latin
           (plain_env (respond 200 (py "OK") "Nothing  here
at all"))
           (py "https://www.seeing-stars.com/Died/60s.shtml")
           (py "Nothing  here
at all") [] [] 7).
  - vm_compute. reflexivity.
  - vm_compute. reflexivity.
Defined.

(* ===================================================================== *)
(** ** The report *)
(* ===================================================================== *)

(** What a turn appends does not depend on what the buffer holds. *)
Lemma source_step_frame U E u out total :
  source_step U E u (out, total)
  = match source_step U E u ([], total) with
    | Ok (block, n) => Ok (out ++ block, n)
    | Raise e => Raise e
    end.
Proof.
  destruct (fetch_html E u) as [html|e] eqn:Hf.
  - destruct (keep_lines U (lines_of E html)) as [|ln kept] eqn:Hk.
    + rewrite !(source_step_debug U E u html) by assumption. reflexivity.
    + rewrite !(source_step_entries U E u html) by (assumption || congruence).
      reflexivity.
  - rewrite !(source_step_error U E u e) by assumption. reflexivity.
Qed.

Lemma source_loop_frame U E urls out total :
  source_loop U E urls (out, total)
  = match source_loop U E urls ([], total) with
    | Ok (body, n) => Ok (out ++ body, n)
    | Raise e => Raise e
    end.
Proof.
  revert out total. induction urls as [|u urls IH]; intros out total.
  - simpl. rewrite app_nil_r. reflexivity.
  - cbn [source_loop]. rewrite (source_step_frame U E u out total).
    destruct (source_step U E u ([], total)) as [[block n]|e];
      cbn [mbind result_bind]; [|reflexivity].
    rewrite (IH (out ++ block) n), (IH block n).
    destruct (source_loop U E urls ([], n)) as [[body m]|e]; [|reflexivity].
    rewrite app_assoc. reflexivity.
Qed.

(** The clock is read for the header only. *)
Lemma source_step_clock U E now u st :
  source_step U (set_clock now E) u st = source_step U E u st.
Proof. reflexivity. Qed.

Lemma source_loop_clock U E now urls st :
  source_loop U (set_clock now E) urls st = source_loop U E urls st.
Proof.
  revert st. induction urls as [|u urls IH]; intros st; [reflexivity|].
  cbn [source_loop]. rewrite source_step_clock.
  destruct (source_step U E u st); cbn [mbind result_bind]; [apply IH | reflexivity].
Qed.

Lemma main_outcome U E w :
  main U E w
  = match source_loop U E URLS ([], 0) with
    | Ok (body, n) =>
        (print (py "Done. Wrote " ++ str_of_nat n
                ++ py " entry lines to " ++ OUTFILE)
           (write_file OUTFILE (join [10%N] (header E ++ body)) w), Ok tt)
    | Raise e => (w, Raise e)
    end.
Proof.
  unfold main. rewrite (source_loop_frame U E URLS (header E) 0).
  destruct (source_loop U E URLS ([], 0)) as [[body n]|e]; reflexivity.
Qed.

(** C9. Two runs over the same fetched content, at different times,
    end alike: either both abort with the same exception and write
    nothing, or both write the file, the same lines in the same order
    except for the second line, the [Generated:] line, which carries each
    run's own time; both print the same completion line. *)
Theorem C9_same_report_except_timestamp
    (U : unicode_data) (E : environment) (now' : pystr) (w : world) :
  (exists e,
     main U E w = (w, Raise e) /\ main U (set_clock now' E) w = (w, Raise e))
  \/ (exists out w1 w2,
        main U E w = (w1, Ok tt)
        /\ main U (set_clock now' E) w = (w2, Ok tt)
        /\ files w1 OUTFILE = Some (join [10%N] out)
        /\ files w2 OUTFILE
           = Some (join [10%N] (<[1 := py "Generated: " ++ now']> out))
        /\ out !! 1 = Some (py "Generated: " ++ now_isoformat E)
        /\ stdout w1 = stdout w2).
Proof.
  rewrite !main_outcome, source_loop_clock.
  destruct (source_loop U E URLS ([], 0)) as [[body n]|e].
  - right. exists (header E ++ body). eexists. eexists.
    split; [reflexivity|]. split; [reflexivity|].
    split; [reflexivity|]. split; [reflexivity|].
    split; reflexivity.
  - left. exists e. split; reflexivity.
Qed.

(** A run that aborts: the first page has a date-like line, the
    formatter raises, and the report of an earlier run stays as it was. *)
Example abort_keeps_old_report :
  main basic_latin
    (plain_env (respond 200 (py "OK") "Jane Q. Public - March 4, 1977, Ohio"))
    old_report_world
  = (old_report_world, Raise (re_error (py "unterminated character set") 12)).
Proof. vm_compute. reflexivity. Qed.

(** A run that completes: every fetch is refused. *)
Example all_refused_report :
  let w := fst (main basic_latin (plain_env refused) old_report_world) in
  snd (main basic_latin (plain_env refused) old_report_world) = Ok tt
  /\ length (file_ops w) = 3
  /\ stdout w = [py "Done. Wrote 0 entry lines to seeing-stars-summaries.txt"]
  /\ option_map (count_prefixed (py "[ERROR]"))
       (option_map (split_char 10) (files w OUTFILE)) = Some 7.
Proof. vm_compute. repeat split. Qed.

Lemma DATE_PAT_shape :
  DATE_PAT = {| pat_regex := date_regex; pat_ignorecase := true |}.
Proof. vm_compute. reflexivity. Qed.

Lemma month_words : words month_alternatives = List.map py month_names.
Proof. vm_compute. reflexivity. Qed.

Lemma month_alternatives_finite : finite_literal month_alternatives = true.
Proof. vm_compute. reflexivity. Qed.

Lemma DATE_PAT_inside_model : inside_model true date_regex = true.
Proof. vm_compute. reflexivity. Qed.

(* ===================================================================== *)
(** ** The matcher finds what the pattern matches *)
(* ===================================================================== *)

Lemma last_or_nil prev : last_or prev [] = prev.
Proof. reflexivity. Qed.

Lemma last_or_app prev w1 w2 :
  last_or (last_or prev w1) w2 = last_or prev (w1 ++ w2).
Proof.
  unfold last_or. rewrite last_app. destruct (last w2); reflexivity.
Qed.

Lemma last_or_cons prev c w : last_or (Some c) w = last_or prev (c :: w).
Proof.
  unfold last_or. rewrite last_cons. destruct (last w); reflexivity.
Qed.

Lemma last_or_None w : last_or None w = last w.
Proof. unfold last_or. destruct (last w); reflexivity. Qed.

Ltac case_rmatch H :=
  match goal with
  | |- context [rmatch ?a ?b ?c ?d ?p] =>
      destruct (rmatch a b c d p) as [?|] eqn:H
  end.

Section MatcherCorrect.
Variable U : unicode_data.
Variable ic : bool.

Lemma sem_iter_app L a b prev w1 w2 t :
  sem_iter a L prev w1 (w2 ++ t) ->
  sem_iter b L (last_or prev w1) w2 t ->
  sem_iter (a + b) L prev (w1 ++ w2) t.
Proof.
  revert prev w1. induction a as [|a IH]; intros prev w1 Ha Hb.
  - simpl in Ha. subst w1. exact Hb.
  - destruct Ha as (u & v & -> & Hu & Hv). simpl.
    exists u, (v ++ w2). rewrite <- !app_assoc.
    split; [reflexivity|]. split; [exact Hu|].
    apply IH; [exact Hv|]. rewrite last_or_app. exact Hb.
Qed.

Lemma sem_iter_split L a b prev w t :
  sem_iter (a + b) L prev w t ->
  exists w1 w2, w = w1 ++ w2 /\ sem_iter a L prev w1 (w2 ++ t)
                /\ sem_iter b L (last_or prev w1) w2 t.
Proof.
  revert prev w. induction a as [|a IH]; intros prev w H.
  - exists [], w. split; [reflexivity|]. split; [reflexivity | exact H].
  - destruct H as (u & v & -> & Hu & Hv).
    destruct (IH _ _ Hv) as (v1 & v2 & -> & H1 & H2).
    exists (u ++ v1), v2. rewrite <- app_assoc. split; [reflexivity|].
    split.
    + exists u, v1. split; [reflexivity|].
      rewrite <- app_assoc in Hu. split; [exact Hu | exact H1].
    + rewrite <- last_or_app. exact H2.
Qed.

Lemma sem_iter_length L n prev w t :
  (forall p v u, L p v u -> v <> []) ->
  sem_iter n L prev w t -> n <= length w.
Proof.
  intros HL. revert prev w. induction n as [|n IH]; intros prev w H.
  - lia.
  - destruct H as (u & v & -> & Hu & Hv).
    apply HL in Hu. apply IH in Hv. rewrite length_app.
    destruct u; [congruence | simpl; lia].
Qed.

Lemma sem_nonempty r prev w t :
  nullable r = false -> sem U ic r prev w t -> w <> [].
Proof.
  revert prev w t.
  induction r as [| x | | negate items | | r1 IH1 | r1 IH1 r2 IH2
                  | r1 IH1 r2 IH2 | lo hi r1 IH1];
    intros prev w t Hn H; simpl in Hn, H; try discriminate.
  - destruct H as (c & -> & _). discriminate.
  - destruct H as (c & -> & _). discriminate.
  - destruct H as (c & -> & _). discriminate.
  - eapply IH1; eauto.
  - apply orb_false_iff in Hn as [Hn1 Hn2].
    destruct H as [H|H]; [eapply IH1 | eapply IH2]; eauto.
  - destruct H as (w1 & w2 & -> & H1 & H2).
    apply andb_false_iff in Hn as [Hn|Hn].
    + apply IH1 in H1; [|exact Hn]. destruct w1; [congruence | discriminate].
    + apply IH2 in H2; [|exact Hn].
      destruct w1; [exact H2 | discriminate].
  - destruct lo as [|lo]; [discriminate|].
    destruct H as (n & Hlo & _ & Hit).
    destruct n as [|n]; [lia|].
    destruct Hit as (w1 & w2 & -> & H1 & _).
    apply IH1 in H1; [|exact Hn]. destruct w1; [congruence | discriminate].
Qed.

Lemma repeat_must_sound body L :
  sound body L ->
  forall lo k prev s e,
    repeat_must body lo k (prev, s) = Some e ->
    exists w t, s = w ++ t /\ sem_iter lo L prev w t
                /\ k (last_or prev w, t) = Some e.
Proof.
  intros Hb lo. induction lo as [|lo IH]; intros k prev s e H.
  - exists [], s. split; [reflexivity|]. split; [reflexivity | exact H].
  - simpl in H. apply Hb in H as (w1 & t1 & -> & H1 & H).
    apply IH in H as (w2 & t & -> & H2 & H).
    exists (w1 ++ w2), t. rewrite <- app_assoc. split; [reflexivity|].
    split.
    + exists w1, w2. split; [reflexivity|]. split; [exact H1 | exact H2].
    + rewrite <- last_or_app. exact H.
Qed.

Lemma repeat_may_sound body L :
  sound body L ->
  forall n k prev s e,
    repeat_may body k n (prev, s) = Some e ->
    exists j w t, j <= n /\ s = w ++ t /\ sem_iter j L prev w t
                  /\ k (last_or prev w, t) = Some e.
Proof.
  intros Hb n. induction n as [|n IH]; intros k prev s e H.
  - exists 0, [], s. split; [lia|]. split; [reflexivity|].
    split; [reflexivity | exact H].
  - simpl in H.
    destruct (body (repeat_may body k n) (prev, s)) as [e'|] eqn:Hbody.
    + injection H as ->.
      apply Hb in Hbody as (w1 & t1 & -> & H1 & H).
      apply IH in H as (j & w2 & t & Hj & -> & H2 & H).
      exists (S j), (w1 ++ w2), t. split; [lia|].
      rewrite <- app_assoc. split; [reflexivity|]. split.
      * exists w1, w2. split; [reflexivity|]. split; [exact H1 | exact H2].
      * rewrite <- last_or_app. exact H.
    + exists 0, [], s. split; [lia|]. split; [reflexivity|].
      split; [reflexivity | exact H].
Qed.

Lemma repeat_must_complete body L :
  complete body L ->
  forall lo k prev w t,
    sem_iter lo L prev w t -> is_Some (k (last_or prev w, t)) ->
    is_Some (repeat_must body lo k (prev, w ++ t)).
Proof.
  intros Hb lo. induction lo as [|lo IH]; intros k prev w t H Hk.
  - simpl in H. subst w. exact Hk.
  - destruct H as (w1 & w2 & -> & H1 & H2). simpl.
    rewrite <- app_assoc. apply Hb; [exact H1|].
    apply IH; [exact H2|]. rewrite last_or_app. exact Hk.
Qed.

Lemma repeat_may_complete body L :
  complete body L ->
  forall n j k prev w t,
    j <= n -> sem_iter j L prev w t -> is_Some (k (last_or prev w, t)) ->
    is_Some (repeat_may body k n (prev, w ++ t)).
Proof.
  intros Hb n. induction n as [|n IH]; intros j k prev w t Hj H Hk.
  - assert (j = 0) as -> by lia. simpl in H. subst w. exact Hk.
  - simpl. destruct j as [|j].
    + simpl in H. subst w.
      destruct (body (repeat_may body k n) (prev, [] ++ t)); [eauto | exact Hk].
    + destruct H as (w1 & w2 & -> & H1 & H2).
      assert (Hs : is_Some (body (repeat_may body k n)
                                 (prev, (w1 ++ w2) ++ t))).
      { rewrite <- app_assoc. apply Hb; [exact H1|].
        apply (IH j); [lia | exact H2 |]. rewrite last_or_app. exact Hk. }
      destruct Hs as [e ->]. eauto.
Qed.

Lemma step_char_sound test :
  sound (step_char test)
        (fun _ w _ => exists c, w = [c] /\ test c = true).
Proof.
  intros k prev s e H. unfold step_char in H. simpl in H.
  destruct s as [|c t]; [discriminate|].
  destruct (test c) eqn:Hc; [|discriminate].
  exists [c], t. split; [reflexivity|]. split; [eauto | exact H].
Qed.

Lemma step_char_complete test :
  complete (step_char test)
           (fun _ w _ => exists c, w = [c] /\ test c = true).
Proof.
  intros k prev w t (c & -> & Hc) Hk. unfold step_char. simpl.
  rewrite Hc. exact Hk.
Qed.

Theorem rmatch_sound r :
  inside_model ic r = true -> sound (rmatch U ic r) (sem U ic r).
Proof.
  induction r as [| x | | negate items | | r1 IH1 | r1 IH1 r2 IH2
                  | r1 IH1 r2 IH2 | lo hi r1 IH1]; intros Hm.
  - intros k prev s e H. exists [], s. simpl in H.
    split; [reflexivity|]. split; [reflexivity | exact H].
  - apply step_char_sound.
  - apply step_char_sound.
  - apply step_char_sound.
  - intros k prev s e H. simpl in H.
    destruct (at_boundary U (prev, s)) eqn:Hb; [|discriminate].
    exists [], s. split; [reflexivity|].
    split; [split; [reflexivity | exact Hb] | exact H].
  - apply IH1. exact Hm.
  - simpl in Hm. apply andb_true_iff in Hm as [Hm1 Hm2].
    intros k prev s e H. simpl in H.
    destruct (rmatch U ic r1 k (prev, s)) as [e'|] eqn:H1.
    + injection H as ->. apply (IH1 Hm1) in H1 as (w & t & Hs & Hw & Hk).
      exists w, t. split; [exact Hs|]. split; [left; exact Hw | exact Hk].
    + apply (IH2 Hm2) in H as (w & t & Hs & Hw & Hk).
      exists w, t. split; [exact Hs|]. split; [right; exact Hw | exact Hk].
  - simpl in Hm. apply andb_true_iff in Hm as [Hm1 Hm2].
    intros k prev s e H. simpl in H.
    apply (IH1 Hm1) in H as (w1 & t1 & -> & H1 & H).
    apply (IH2 Hm2) in H as (w2 & t & -> & H2 & H).
    exists (w1 ++ w2), t. rewrite <- app_assoc. split; [reflexivity|].
    split.
    + exists w1, w2. split; [reflexivity|]. split; assumption.
    + rewrite <- last_or_app. exact H.
  - simpl in Hm. apply andb_true_iff in Hm as [Hm Hb].
    apply andb_true_iff in Hm as [_ Hm].
    intros k prev s e H. cbn [rmatch] in H.
    apply (repeat_must_sound _ _ (IH1 Hm)) in H as (w1 & t1 & -> & H1 & H).
    apply (repeat_may_sound _ _ (IH1 Hm)) in H
      as (j & w2 & t & Hj & -> & H2 & H).
    exists (w1 ++ w2), t. rewrite <- app_assoc. split; [reflexivity|].
    split.
    + exists (lo + j). split; [lia|]. split.
      * destruct hi as [h|]; [|exact I].
        apply Nat.leb_le in Hb. lia.
      * apply sem_iter_app; assumption.
    + rewrite <- last_or_app. exact H.
Qed.

Theorem rmatch_complete r :
  inside_model ic r = true -> complete (rmatch U ic r) (sem U ic r).
Proof.
  induction r as [| x | | negate items | | r1 IH1 | r1 IH1 r2 IH2
                  | r1 IH1 r2 IH2 | lo hi r1 IH1]; intros Hm.
  - intros k prev w t H Hk. simpl in H. subst w. exact Hk.
  - apply step_char_complete.
  - apply step_char_complete.
  - apply step_char_complete.
  - intros k prev w t [-> Hb] Hk. cbn [rmatch app].
    unfold cursor, pystr in *. rewrite Hb. exact Hk.
  - apply IH1. exact Hm.
  - simpl in Hm. apply andb_true_iff in Hm as [Hm1 Hm2].
    intros k prev w t H Hk. simpl.
    destruct (rmatch U ic r1 k (prev, w ++ t)) as [e|] eqn:H1; [eauto|].
    destruct H as [H|H].
    + apply (IH1 Hm1 k) in H; [|exact Hk]. rewrite H1 in H.
      destruct H as [? ?]. discriminate.
    + apply (IH2 Hm2); assumption.
  - simpl in Hm. apply andb_true_iff in Hm as [Hm1 Hm2].
    intros k prev w t (w1 & w2 & -> & H1 & H2) Hk. simpl.
    rewrite <- app_assoc. apply (IH1 Hm1); [exact H1|].
    apply (IH2 Hm2); [exact H2|]. rewrite last_or_app. exact Hk.
  - simpl in Hm. apply andb_true_iff in Hm as [Hm Hb].
    apply andb_true_iff in Hm as [Hn Hm]. apply negb_true_iff in Hn.
    intros k prev w t (n & Hlo & Hhi & Hit) Hk. cbn [rmatch].
    replace n with (lo + (n - lo)) in Hit by lia.
    apply sem_iter_split in Hit as (w1 & w2 & -> & H1 & H2).
    rewrite <- app_assoc.
    apply (repeat_must_complete _ _ (IH1 Hm)); [exact H1|].
    apply (repeat_may_complete _ _ (IH1 Hm) _ (n - lo)).
    + destruct hi as [h|]; [lia|].
      apply sem_iter_length in H2;
        [|intros p v u; apply sem_nonempty; exact Hn].
      cbn [rest snd]. rewrite !length_app. lia.
    + exact H2.
    + rewrite last_or_app. exact Hk.
Qed.

(** [search] finds a match exactly when some piece of the subject is
    matched by the pattern where it stands. *)
Theorem search_from_spec r prev s :
  inside_model ic r = true ->
  is_Some (search_from U ic r prev s) <->
  exists pre w t, s = pre ++ w ++ t /\ sem U ic r (last_or prev pre) w t.
Proof.
  intros Hm. revert prev. induction s as [|c s IH]; intros prev.
  - cbn [search_from]. split.
    + case_rmatch H.
      * intros _. apply (rmatch_sound r Hm) in H as (w & t & Hs & Hw & _).
        exists [], w, t. split; [exact Hs | exact Hw].
      * intros [? ?]. discriminate.
    + intros (pre & w & t & E & H).
      destruct pre; [|discriminate]. simpl in E. rewrite last_or_nil in H.
      apply (rmatch_complete r Hm Some) in H; [|eauto].
      rewrite <- E in H. destruct H as [e H].
      unfold cursor, pystr in *. rewrite H. eauto.
  - cbn [search_from]. split.
    + case_rmatch H.
      * intros _. apply (rmatch_sound r Hm) in H as (w & t & Hs & Hw & _).
        exists [], w, t. split; [exact Hs | exact Hw].
      * intros Hs.
        assert (Hr : is_Some (search_from U ic r (Some c) s)).
        { destruct (search_from U ic r (Some c) s) as [[n e]|]; [eauto|].
          destruct Hs as [? ?]. discriminate. }
        apply IH in Hr as (pre & w & t & -> & Hw).
        exists (c :: pre), w, t. split; [reflexivity|].
        rewrite <- (last_or_cons prev). exact Hw.
    + intros (pre & w & t & E & H).
      case_rmatch Hr; [eauto|].
      destruct pre as [|d pre].
      * simpl in E. rewrite last_or_nil in H.
        apply (rmatch_complete r Hm Some) in H; [|eauto].
        rewrite <- E in H. destruct H as [e H].
        unfold cursor, pystr in *. rewrite H in Hr. discriminate.
      * injection E as <- ->.
        rewrite <- (last_or_cons prev) in H.
        assert (Hs : is_Some (search_from U ic r (Some c) (pre ++ w ++ t))).
        { apply IH. eauto. }
        destruct Hs as [[n e] ->]. eauto.
Qed.
End MatcherCorrect.

(* ===================================================================== *)
(** ** The pieces of the date pattern *)
(* ===================================================================== *)

Section Pieces.
Variable U : unicode_data.
Variable ic : bool.

Lemma sem_iter_class negate items n prev w t :
  sem_iter n (sem U ic (IN negate items)) prev w t
  <-> length w = n
      /\ Forall (fun c => set_match U negate items c = true) w.
Proof.
  revert prev w. induction n as [|n IH]; intros prev w; simpl.
  - split.
    + intros ->. split; [reflexivity | constructor].
    + intros [H _]. destruct w; [reflexivity | discriminate].
  - split.
    + intros (w1 & w2 & -> & (c & -> & Hc) & H2).
      apply IH in H2 as [<- H2]. split; [reflexivity|].
      constructor; assumption.
    + intros [Hl Hf]. destruct w as [|c w]; [discriminate|].
      apply Forall_cons in Hf as [Hc Hf].
      exists [c], w. split; [reflexivity|]. split; [eauto|].
      apply IH. split; [simpl in Hl; lia | exact Hf].
Qed.

Lemma sem_digits lo hi prev w t :
  sem U ic (digits lo hi) prev w t
  <-> lo <= length w <= hi /\ all_digits U w.
Proof.
  unfold digits, all_digits. cbn [sem]. split.
  - intros (n & Hlo & Hhi & Hit). apply sem_iter_class in Hit as [<- Hf].
    split; [lia|]. eapply Forall_impl; [exact Hf|].
    intros c Hc. cbn in Hc. rewrite orb_false_r in Hc. exact Hc.
  - intros [Hl Hf]. exists (length w). split; [lia|]. split; [lia|].
    apply sem_iter_class. split; [reflexivity|].
    eapply Forall_impl; [exact Hf|].
    intros c Hc. cbn. rewrite orb_false_r. exact Hc.
Qed.

Lemma sem_spaces prev w t :
  sem U ic spaces prev w t <-> w <> [] /\ all_space w.
Proof.
  unfold spaces, all_space. cbn [sem]. split.
  - intros (n & Hlo & _ & Hit). apply sem_iter_class in Hit as [<- Hf].
    split; [destruct w; [simpl in Hlo; lia | discriminate]|].
    eapply Forall_impl; [exact Hf|].
    intros c Hc. cbn in Hc. rewrite orb_false_r in Hc. exact Hc.
  - intros [Hne Hf]. exists (length w).
    split; [destruct w; [congruence | simpl; lia]|]. split; [exact I|].
    apply sem_iter_class. split; [reflexivity|].
    eapply Forall_impl; [exact Hf|].
    intros c Hc. cbn. rewrite orb_false_r. exact Hc.
Qed.

Lemma ci_equal_single x w :
  ci_equal U ic [x] w <-> exists c, w = [c] /\ literal_match U ic x c = true.
Proof.
  unfold ci_equal. split.
  - intros H. inversion H as [|a c l l' Hc Hl]; subst.
    inversion Hl; subst. eauto.
  - intros (c & -> & Hc). constructor; [exact Hc | constructor].
Qed.

Lemma ci_equal_app x y w1 w2 :
  ci_equal U ic x w1 -> ci_equal U ic y w2 ->
  ci_equal U ic (x ++ y) (w1 ++ w2).
Proof. apply List.Forall2_app. Qed.

Lemma ci_equal_app_inv x y w :
  ci_equal U ic (x ++ y) w ->
  exists w1 w2, w = w1 ++ w2 /\ ci_equal U ic x w1 /\ ci_equal U ic y w2.
Proof.
  intros H. apply List.Forall2_app_inv_l in H as (w1 & w2 & H1 & H2 & ->).
  eauto.
Qed.

(** A pattern of literal words matches the words it lists, up to
    case. *)
Lemma sem_words r :
  finite_literal r = true ->
  forall prev w t,
    sem U ic r prev w t <-> exists x, In x (words r) /\ ci_equal U ic x w.
Proof.
  induction r as [| x | | negate items | | r1 IH1 | r1 IH1 r2 IH2
                  | r1 IH1 r2 IH2 | lo hi r1 IH1];
    intros Hf prev w t; try discriminate.
  - simpl. split.
    + intros ->. exists []. split; [left; reflexivity | constructor].
    + intros (x & [<-|[]] & H). inversion H. reflexivity.
  - simpl. split.
    + intros H. exists [x]. split; [left; reflexivity|].
      apply ci_equal_single. exact H.
    + intros (y & [<-|[]] & H). apply ci_equal_single. exact H.
  - apply IH1. exact Hf.
  - simpl in Hf. apply andb_true_iff in Hf as [Hf1 Hf2].
    cbn [sem words]. rewrite (IH1 Hf1), (IH2 Hf2). split.
    + intros [(x & Hx & H)|(x & Hx & H)]; exists x;
        (split; [apply in_app_iff; auto | exact H]).
    + intros (x & Hx & H). apply in_app_iff in Hx as [Hx|Hx]; eauto.
  - simpl in Hf. apply andb_true_iff in Hf as [Hf1 Hf2].
    cbn [sem words]. split.
    + intros (w1 & w2 & -> & H1 & H2).
      apply (IH1 Hf1) in H1 as (a & Ha & H1).
      apply (IH2 Hf2) in H2 as (b & Hb & H2).
      exists (a ++ b). split.
      * apply in_flat_map. exists a. split; [exact Ha|].
        apply in_map_iff. eauto.
      * apply ci_equal_app; assumption.
    + intros (x & Hx & H).
      apply in_flat_map in Hx as (a & Ha & Hx).
      apply in_map_iff in Hx as (b & <- & Hb).
      apply ci_equal_app_inv in H as (w1 & w2 & -> & H1 & H2).
      exists w1, w2. split; [reflexivity|]. split.
      * apply (IH1 Hf1). eauto.
      * apply (IH2 Hf2). eauto.
  - simpl in Hf. destruct lo as [|lo]; [|discriminate].
    destruct hi as [[|[|h]]|]; try discriminate.
    cbn [sem words]. split.
    + intros (n & _ & Hn & Hit). destruct n as [|[|n]]; [| |lia].
      * simpl in Hit. subst w. exists [].
        split; [left; reflexivity | constructor].
      * destruct Hit as (w1 & w2 & -> & H1 & H2). simpl in H2. subst w2.
        rewrite app_nil_r. apply (IH1 Hf) in H1 as (x & Hx & H1).
        exists x. split; [right; exact Hx | exact H1].
    + intros (x & [<-|Hx] & H).
      * inversion H. exists 0. split; [lia|]. split; [lia|]. reflexivity.
      * exists 1. split; [lia|]. split; [lia|].
        exists w, []. rewrite app_nil_r. split; [reflexivity|].
        split; [|reflexivity]. apply (IH1 Hf). eauto.
Qed.
End Pieces.

(* ===================================================================== *)
(** ** The Entry Filter *)
(* ===================================================================== *)

Section DateShapes.
Variable U : unicode_data.

Lemma sem_textual prev w t :
  sem U true textual_regex prev w t <-> textual_date U w.
Proof.
  unfold textual_regex, textual_date. cbn [sem]. split.
  - intros (w1 & r1 & -> & H1 & w2 & r2 & -> & H2 & w3 & r3 & -> & H3
            & w4 & r4 & -> & H4 & w5 & r5 & -> & H5 & w6 & r6 & -> & H6 & ->).
    apply (sem_words U true _ month_alternatives_finite) in H1
      as (x & Hx & H1).
    rewrite month_words in Hx. apply in_map_iff in Hx as (name & <- & Hname).
    apply sem_spaces in H2 as [H2 H2'], H5 as [H5 H5'].
    apply sem_digits in H3 as [H3 H3'], H6 as [H6 H6'].
    exists name, w1, w2, w3, w4, w5, w6. rewrite app_nil_r.
    split; [reflexivity|].
    split; [exact Hname|]. split; [exact H1|].
    split; [exact H2|]. split; [exact H2'|].
    split; [exact H3|]. split; [exact H3'|].
    split; [apply (ci_equal_single U true (ch ",")); exact H4|].
    split; [exact H5|]. split; [exact H5'|].
    split; [lia | exact H6'].
  - intros (name & month & ws1 & day & comma & ws2 & year & -> & Hname & Hm
            & Hs1 & Hs1' & Hd & Hd' & Hc & Hs2 & Hs2' & Hy & Hy').
    exists month, (ws1 ++ day ++ comma ++ ws2 ++ year).
    split; [reflexivity|]. split.
    { apply (sem_words U true _ month_alternatives_finite).
      exists (py name). split; [|exact Hm].
      rewrite month_words. apply in_map. exact Hname. }
    exists ws1, (day ++ comma ++ ws2 ++ year). split; [reflexivity|].
    split; [apply sem_spaces; split; assumption|].
    exists day, (comma ++ ws2 ++ year). split; [reflexivity|].
    split; [apply sem_digits; split; assumption|].
    exists comma, (ws2 ++ year). split; [reflexivity|].
    split; [apply (ci_equal_single U true (ch ",")); exact Hc|].
    exists ws2, year. split; [reflexivity|].
    split; [apply sem_spaces; split; assumption|].
    exists year, []. rewrite app_nil_r. split; [reflexivity|].
    split; [apply sem_digits; split; [lia | assumption] | reflexivity].
Qed.

Lemma sem_numeric prev w t :
  sem U true numeric_regex prev w t <-> numeric_date U w.
Proof.
  unfold numeric_regex, numeric_date. cbn [sem]. split.
  - intros (w1 & r1 & -> & H1 & w2 & r2 & -> & H2 & w3 & r3 & -> & H3
            & w4 & r4 & -> & H4 & w5 & r5 & -> & H5 & ->).
    apply sem_digits in H1 as [H1 H1'], H3 as [H3 H3'], H5 as [H5 H5'].
    exists w1, w2, w3, w4, w5. rewrite app_nil_r.
    split; [reflexivity|].
    split; [exact H1|]. split; [exact H1'|].
    split; [apply (ci_equal_single U true (ch "/")); exact H2|].
    split; [exact H3|]. split; [exact H3'|].
    split; [apply (ci_equal_single U true (ch "/")); exact H4|].
    split; [exact H5 | exact H5'].
  - intros (a & s1 & b & s2 & c & -> & Ha & Ha' & Hs1 & Hb & Hb' & Hs2
            & Hc & Hc').
    exists a, (s1 ++ b ++ s2 ++ c). split; [reflexivity|].
    split; [apply sem_digits; split; assumption|].
    exists s1, (b ++ s2 ++ c). split; [reflexivity|].
    split; [apply (ci_equal_single U true (ch "/")); exact Hs1|].
    exists b, (s2 ++ c). split; [reflexivity|].
    split; [apply sem_digits; split; assumption|].
    exists s2, c. split; [reflexivity|].
    split; [apply (ci_equal_single U true (ch "/")); exact Hs2|].
    exists c, []. rewrite app_nil_r. split; [reflexivity|].
    split; [apply sem_digits; split; assumption | reflexivity].
Qed.

Lemma ci_equal_two x y w :
  ci_equal U true [x; y] w
  <-> exists c d, w = [c; d] /\ literal_match U true x c = true
                  /\ literal_match U true y d = true.
Proof.
  unfold ci_equal. split.
  - intros H. inversion H as [|a c l l' Hc Hl]; subst.
    inversion Hl as [|a' d l0 l0' Hd Hl0]; subst.
    inversion Hl0; subst. eauto.
  - intros (c & d & -> & Hc & Hd). repeat constructor; assumption.
Qed.

Lemma sem_century x y prev w t :
  sem U true (SEQ (LITERAL x) (SEQ (LITERAL y) (SEQ (digits 2 2) EMPTY)))
      prev w t
  <-> exists century rest,
        w = century ++ rest /\ ci_equal U true [x; y] century
        /\ length rest = 2 /\ all_digits U rest.
Proof.
  cbn [sem]. split.
  - intros (w1 & r1 & -> & (c & -> & Hc) & w2 & r2 & -> & (d & -> & Hd)
            & w3 & r3 & -> & H3 & ->).
    apply sem_digits in H3 as [H3 H3'].
    exists [c; d], w3. rewrite app_nil_r. split; [reflexivity|].
    split; [apply ci_equal_two; eauto|]. split; [lia | exact H3'].
  - intros (century & rest & -> & Hc & Hl & Hd).
    apply ci_equal_two in Hc as (c & d & -> & Hc & Hd').
    exists [c], ([d] ++ rest). split; [reflexivity|]. split; [eauto|].
    exists [d], rest. split; [reflexivity|]. split; [eauto|].
    exists rest, []. rewrite app_nil_r. split; [reflexivity|].
    split; [apply sem_digits; split; [lia | exact Hd] | reflexivity].
Qed.

Lemma sem_year prev w t :
  sem U true year_regex prev w t <-> year_word U w.
Proof.
  unfold year_regex, year_word.
  change (py "19") with [ch "1"; ch "9"].
  change (py "20") with [ch "2"; ch "0"].
  cbn [sem]. fold (digits 2 2).
  pose proof (sem_century (ch "1") (ch "9") prev w t) as H19.
  pose proof (sem_century (ch "2") (ch "0") prev w t) as H20.
  cbn [sem] in H19, H20. rewrite H19, H20. clear H19 H20. split.
  - intros [(c & r & ? & ? & ? & ?)|(c & r & ? & ? & ? & ?)];
      exists c, r; auto.
  - intros (c & r & ? & [?|?] & ? & ?); [left | right]; exists c, r; auto.
Qed.

Lemma sem_date_regex prev w t :
  sem U true date_regex prev w t
  <-> textual_date U w
      \/ numeric_date U w
      \/ (year_word U w
          /\ at_boundary U (prev, w ++ t) = true
          /\ at_boundary U (last_or prev w, t) = true).
Proof.
  unfold date_regex. cbn [sem]. split.
  - intros [H|[H|H]].
    + destruct H as (w1 & w2 & -> & H & ->). rewrite app_nil_r.
      left. apply sem_textual in H. exact H.
    + destruct H as (w1 & w2 & -> & H & ->). rewrite app_nil_r.
      right. left. apply sem_numeric in H. exact H.
    + destruct H as (w1 & w2 & -> & [-> Hb1] & w3 & w4 & -> & Hy
                     & w5 & w6 & -> & [-> Hb2] & ->).
      right. right. simpl in *. rewrite app_nil_r in *.
      apply sem_year in Hy. auto.
  - intros [H|[H|(Hy & Hb1 & Hb2)]].
    + left. exists w, []. rewrite app_nil_r. split; [reflexivity|].
      split; [apply sem_textual; exact H | reflexivity].
    + right. left. exists w, []. rewrite app_nil_r. split; [reflexivity|].
      split; [apply sem_numeric; exact H | reflexivity].
    + right. right. exists [], w. split; [reflexivity|].
      split; [split; [reflexivity | exact Hb1]|].
      exists w, []. rewrite app_nil_r. split; [reflexivity|].
      split; [apply sem_year; exact Hy|].
      exists [], []. split; [reflexivity|].
      split; [split; [reflexivity | exact Hb2] | reflexivity].
Qed.

(** [DATE_PAT.search] finds something exactly in the lines that have
    a date in them. *)
Lemma DATE_PAT_search_spec ln :
  Pattern_search U DATE_PAT ln = true <-> date_like U ln.
Proof.
  unfold Pattern_search. rewrite DATE_PAT_shape. cbn [pat_regex pat_ignorecase].
  assert (Hs : is_Some (search_from U true date_regex None ln) <-> date_like U ln).
  { rewrite (search_from_spec U true date_regex None ln DATE_PAT_inside_model).
    unfold date_like, word_boundary. split.
    - intros (pre & w & t & -> & H). apply sem_date_regex in H.
      rewrite last_or_None in H.
      exists pre, w, t. split; [reflexivity|].
      destruct H as [H|[H|(Hy & Hb1 & Hb2)]]; [auto | auto |].
      right. right. split; [exact Hy|]. split; [exact Hb1|].
      rewrite last_app. exact Hb2.
    - intros (pre & w & t & -> & H). exists pre, w, t.
      split; [reflexivity|]. apply sem_date_regex. rewrite last_or_None.
      destruct H as [H|[H|(Hy & Hb1 & Hb2)]]; [auto | auto |].
      right. right. split; [exact Hy|]. split; [exact Hb1|].
      rewrite last_app in Hb2. exact Hb2. }
  rewrite <- Hs.
  destruct (search_from U true date_regex None ln) as [x|]; split.
  - eauto.
  - reflexivity.
  - discriminate.
  - intros [? ?]. discriminate.
Qed.

Lemma keep_lines_filter lines :
  keep_lines U lines = List.filter (keeps U) lines.
Proof.
  induction lines as [|ln lines IH]; [reflexivity|].
  cbn [keep_lines List.filter]. unfold keeps at 1. rewrite IH.
  destruct (length ln <? 10); [reflexivity|].
  destruct (Pattern_search U DATE_PAT ln); reflexivity.
Qed.

Lemma keeps_spec ln :
  keeps U ln = true <-> 10 <= length ln /\ date_like U ln.
Proof.
  unfold keeps. rewrite andb_true_iff, negb_true_iff, Nat.ltb_ge.
  rewrite DATE_PAT_search_spec. reflexivity.
Qed.
End DateShapes.

(** Under the Basic Latin data a bare year is four ASCII digits that
    write a number from 1900 to 2099. *)
Lemma year_word_range (w : pystr) :
  year_word basic_latin w
  <-> length w = 4
      /\ Forall (fun c => ascii_isdigit c = true) w
      /\ (1900 <= year_value w <= 2099)%N.
Proof.
  unfold year_word, all_digits.
  change (py "19") with [49; 57]%N. change (py "20") with [50; 48]%N.
  split.
  - intros (century & rest & -> & Hc & Hl & Hd).
    destruct rest as [|e [|f [|? ?]]]; try discriminate.
    apply Forall_cons in Hd as [He Hd]. apply Forall_cons in Hd as [Hf _].
    cbn in He, Hf.
    assert (Hcd : century = [49; 57]%N \/ century = [50; 48]%N).
    { destruct Hc as [Hc|Hc];
        apply ci_equal_two in Hc as (c & d & -> & Hc1 & Hc2);
        cbn in Hc1, Hc2; apply N.eqb_eq in Hc1, Hc2; subst; auto. }
    unfold ascii_isdigit in He, Hf.
    apply andb_true_iff in He as [He1 He2], Hf as [Hf1 Hf2].
    apply N.leb_le in He1, He2, Hf1, Hf2.
    destruct Hcd as [-> | ->]; (split; [reflexivity|]); split.
    + repeat constructor; unfold ascii_isdigit;
        apply andb_true_iff; split; apply N.leb_le; lia.
    + unfold year_value. cbn [fold_left app]. lia.
    + repeat constructor; unfold ascii_isdigit;
        apply andb_true_iff; split; apply N.leb_le; lia.
    + unfold year_value. cbn [fold_left app]. lia.
  - intros (Hl & Hd & Hr).
    destruct w as [|a [|b [|c [|d [|? ?]]]]]; try discriminate.
    apply Forall_cons in Hd as [Ha Hd]. apply Forall_cons in Hd as [Hb Hd].
    apply Forall_cons in Hd as [Hc Hd]. apply Forall_cons in Hd as [Hd' _].
    exists [a; b], [c; d]. split; [reflexivity|].
    split; [|split; [reflexivity | repeat constructor; assumption]].
    unfold ascii_isdigit in Ha, Hb, Hc, Hd'.
    apply andb_true_iff in Ha as [Ha1 Ha2], Hb as [Hb1 Hb2],
      Hc as [Hc1 Hc2], Hd' as [Hd1 Hd2].
    apply N.leb_le in Ha1, Ha2, Hb1, Hb2, Hc1, Hc2, Hd1, Hd2.
    unfold year_value in Hr. cbn [fold_left] in Hr.
    assert (Hab : (a = 49 /\ b = 57)%N \/ (a = 50 /\ b = 48)%N) by lia.
    destruct Hab as [[-> ->] | [-> ->]]; [left | right];
      apply ci_equal_two; eexists _, _; repeat split; reflexivity.
Qed.

Example date_pattern_examples :
  List.map (fun s => Pattern_search basic_latin DATE_PAT (py s))
    ["Jane Q. Public - March 4, 1977, Ohio"; "died SEPT  9,  2001 at home";
     "born 3/4/77 in Ohio"; "No date in this line"; "in the 1950s, probably";
     "file_1950_copy.txt"; "May 4 1877 without comma"; "(1950) Ohio";
     "call 555/1234/5 now"]%string
  = [true; true; true; false; false; false; false; true; false].
Proof. vm_compute. reflexivity. Qed.

(** C3. The Entry Filter keeps a line exactly when the line has at
    least 10 characters and a piece of it has one of the three date
    shapes (month name, day, comma, four-digit year; D{1,2}/D{1,2}/D{2,4};
    a four-digit year in 19xx or 20xx between word boundaries), letters
    compared up to case. The kept lines are lines of the input, unchanged
    and in their order. A line whose only year is 1899 or 2100 is not
    kept, one with 1900 or 2099 is; the bare years are the numbers from
    1900 to 2099. *)
Theorem C3_entry_filter (U : unicode_data) (lines : list pystr) :
  keep_lines U lines = List.filter (keeps U) lines
  /\ (forall ln, keeps U ln = true <-> 10 <= length ln /\ date_like U ln)
  /\ (forall ln, Pattern_search U DATE_PAT ln = true <-> date_like U ln)
  /\ sublist (keep_lines U lines) lines
  /\ (forall ln, In ln (keep_lines U lines)
                 <-> In ln lines /\ 10 <= length ln /\ date_like U ln)
  /\ keep_lines basic_latin
       [py "He died in 1899."; py "He died in 1900."; py "He died in 2099.";
        py "He died in 2100."; py "1900"]
     = [py "He died in 1900."; py "He died in 2099."]
  /\ ~ date_like basic_latin (py "1899")
  /\ date_like basic_latin (py "1900")
  /\ date_like basic_latin (py "2099")
  /\ (forall w, year_word basic_latin w
                <-> length w = 4
                    /\ Forall (fun c => ascii_isdigit c = true) w
                    /\ (1900 <= year_value w <= 2099)%N).
Proof.
  split; [apply keep_lines_filter|].
  split; [apply keeps_spec|].
  split; [apply DATE_PAT_search_spec|].
  split; [rewrite keep_lines_filter; apply filter_sublist|].
  split.
  { intros ln. rewrite keep_lines_filter, filter_In, keeps_spec. reflexivity. }
  split; [vm_compute; reflexivity|].
  split.
  { rewrite <- DATE_PAT_search_spec. vm_compute. discriminate. }
  split; [apply DATE_PAT_search_spec; vm_compute; reflexivity|].
  split; [apply DATE_PAT_search_spec; vm_compute; reflexivity|].
  apply year_word_range.
Qed.

(* ===================================================================== *)
(** ** More on [clean] *)
(* ===================================================================== *)

Lemma collapse_visible test repl inrun s :
  (forall c, In c repl -> test c = true) ->
  List.filter (fun c => negb (test c)) (collapse test repl inrun s)
  = List.filter (fun c => negb (test c)) s.
Proof.
  intros Hr.
  assert (H0 : forall l, (forall c, In c l -> test c = true) ->
               List.filter (fun c => negb (test c)) l = []).
  { induction l as [|x l IHl]; intros Hl; [reflexivity|]. simpl.
    rewrite (Hl x) by (left; reflexivity). simpl.
    apply IHl. intros c Hc. apply Hl. right. exact Hc. }
  revert inrun. induction s as [|c t IH]; intros inrun; [reflexivity|].
  cbn [collapse List.filter]. destruct (test c) eqn:Hc.
  - rewrite List.filter_app, IH. cbn [negb].
    destruct inrun; [reflexivity|]. rewrite (H0 repl Hr). reflexivity.
  - cbn [List.filter negb]. rewrite Hc. cbn [negb]. rewrite IH. reflexivity.
Qed.

Lemma lstrip_by_visible test s :
  List.filter (fun c => negb (test c)) (lstrip_by test s)
  = List.filter (fun c => negb (test c)) s.
Proof.
  induction s as [|c t IH]; [reflexivity|]. cbn [lstrip_by].
  destruct (test c) eqn:Hc; [|reflexivity].
  cbn [List.filter]. rewrite Hc. exact IH.
Qed.

Lemma strip_by_visible test s :
  List.filter (fun c => negb (test c)) (strip_by test s)
  = List.filter (fun c => negb (test c)) s.
Proof.
  unfold strip_by.
  rewrite filter_rev, lstrip_by_visible, filter_rev, rev_involutive.
  apply lstrip_by_visible.
Qed.

Lemma collapse_In test x inrun s c :
  In c (collapse test [x] inrun s) ->
  c = x \/ (In c s /\ test c = false).
Proof.
  revert inrun. induction s as [|d t IH]; intros inrun H; [destruct H|].
  cbn [collapse] in H. destruct (test d) eqn:Hd.
  - apply in_app_iff in H as [H|H].
    + destruct inrun; [destruct H|]. destruct H as [<-|[]]. left. reflexivity.
    + apply IH in H as [H|[H1 H2]]; [left; exact H|].
      right. split; [right; exact H1 | exact H2].
  - destruct H as [<-|H].
    + right. split; [left; reflexivity | exact Hd].
    + apply IH in H as [H|[H1 H2]]; [left; exact H|].
      right. split; [right; exact H1 | exact H2].
Qed.

Lemma strip_by_In test s c : In c (strip_by test s) -> In c s.
Proof.
  intros H. destruct (strip_by_infix test s) as (a & b & Hab).
  rewrite Hab. apply in_app_iff. right. apply in_app_iff. left. exact H.
Qed.

Lemma clean_text_only_spaces s : only_spaces (clean_text s).
Proof.
  intros c Hin Hc. unfold clean_text, strip in Hin.
  apply strip_by_In in Hin.
  change (py " ") with [32%N] in Hin.
  apply collapse_In in Hin as [H|[_ H]]; [exact H | congruence].
Qed.

Lemma no_double_tail test c t : no_double test (c :: t) -> no_double test t.
Proof.
  intros H. apply (no_double_infix test [c] t []).
  rewrite app_nil_r. exact H.
Qed.

(** Collapsing changes nothing in a text whose whitespace is single
    spaces. *)
Lemma collapse_fixed s inrun :
  no_double isspace s -> only_spaces s ->
  (inrun = true -> forall c, head s = Some c -> isspace c = false) ->
  collapse isspace [32%N] inrun s = s.
Proof.
  revert inrun. induction s as [|c t IH]; intros inrun Hd Ho Hh; [reflexivity|].
  cbn [collapse]. destruct (isspace c) eqn:Hc.
  - destruct inrun.
    { rewrite (Hh eq_refl c eq_refl) in Hc. discriminate. }
    rewrite (Ho c (or_introl eq_refl) Hc). simpl. f_equal.
    apply IH.
    + eapply no_double_tail. exact Hd.
    + intros x Hx. apply Ho. right. exact Hx.
    + intros _ x Hx. destruct t as [|y t]; [discriminate|].
      injection Hx as <-. apply (Hd [] c y t eq_refl Hc).
  - f_equal. apply IH.
    + eapply no_double_tail. exact Hd.
    + intros x Hx. apply Ho. right. exact Hx.
    + discriminate.
Qed.

Lemma lstrip_by_fixed test s :
  (forall c, head s = Some c -> test c = false) -> lstrip_by test s = s.
Proof.
  destruct s as [|c t]; [reflexivity|]. intros H. simpl.
  rewrite (H c eq_refl). reflexivity.
Qed.

Lemma head_rev_last {A} (l : list A) : head (rev l) = last l.
Proof. rewrite <- (rev_involutive l) at 2. symmetry. apply last_rev_head. Qed.

Lemma strip_by_fixed test s :
  (forall c, head s = Some c -> test c = false) ->
  (forall c, last s = Some c -> test c = false) ->
  strip_by test s = s.
Proof.
  intros Hh Hl. unfold strip_by. rewrite (lstrip_by_fixed test s Hh).
  rewrite lstrip_by_fixed; [apply rev_involutive|].
  intros c Hc. rewrite head_rev_last in Hc. apply Hl. exact Hc.
Qed.

Lemma clean_text_fixed line : canonical line -> clean_text line = line.
Proof.
  intros [(Hne & Hh & Hl & Hd) Ho]. unfold clean_text, strip.
  change (py " ") with [32%N].
  rewrite (collapse_fixed line false Hd Ho) by discriminate.
  apply strip_by_fixed; assumption.
Qed.

Lemma clean_text_canonical s : clean_text s <> [] -> canonical (clean_text s).
Proof.
  intros H. split; [apply clean_text_normalized; exact H|].
  apply clean_text_only_spaces.
Qed.

(** X1. [clean] keeps every character that is not whitespace, in the
    order of the input, and adds none: the text without its whitespace is
    the same before and after. *)
Theorem X1_clean_keeps_visible (U : unicode_data) (s : pystr) :
  exists t, clean U s = Ok t /\ visible t = visible s.
Proof.
  exists (clean_text s). split; [apply clean_total|].
  unfold visible, clean_text, strip.
  rewrite strip_by_visible. apply collapse_visible.
  intros c [<-|[]]. reflexivity.
Qed.

(** X2. The only whitespace [clean] leaves is the space U+0020: tabs,
    newlines, no-break spaces and the other Unicode spaces of the input
    are gone from the result. *)
Theorem X2_clean_only_spaces (U : unicode_data) (s : pystr) :
  exists t,
    clean U s = Ok t
    /\ (forall c, In c t -> isspace c = true -> c = 32%N)
    /\ ~ In 10%N t /\ ~ In 9%N t /\ ~ In 160%N t.
Proof.
  exists (clean_text s). split; [apply clean_total|].
  pose proof (clean_text_only_spaces s) as Ho.
  split; [exact Ho|].
  repeat split; intros Hin; pose proof (Ho _ Hin eq_refl) as H; discriminate H.
Qed.

(** X3. [clean] is idempotent, and its fixed points are the empty text
    and the lines in canonical form (no whitespace at the ends, no two
    neighbouring whitespace characters, no whitespace but the space). *)
Theorem X3_clean_idempotent (U : unicode_data) (s : pystr) :
  (exists t, clean U s = Ok t /\ clean U t = Ok t)
  /\ (clean U s = Ok s <-> s = [] \/ canonical s).
Proof.
  assert (Hfix : forall x, x = [] \/ canonical x -> clean_text x = x).
  { intros x [->|Hx]; [reflexivity | apply clean_text_fixed; exact Hx]. }
  assert (Himg : forall x, clean_text x = [] \/ canonical (clean_text x)).
  { intros x. destruct (clean_text x) eqn:E; [left; reflexivity|].
    right. rewrite <- E. apply clean_text_canonical. rewrite E. discriminate. }
  split.
  - exists (clean_text s). split; [apply clean_total|].
    rewrite clean_total. f_equal. apply Hfix, Himg.
  - rewrite clean_total. split.
    + intros [= H]. rewrite <- H. apply Himg.
    + intros H. f_equal. apply Hfix, H.
Qed.

(* ===================================================================== *)
(** ** The Normalizer on text that is already normalized *)
(* ===================================================================== *)

Lemma split_char_no_sep sep x : ~ In sep x -> split_char sep x = [x].
Proof.
  induction x as [|c t IH]; intros H; [reflexivity|]. simpl.
  destruct (c =? sep)%N eqn:Hc.
  - apply N.eqb_eq in Hc. destruct H. left. exact Hc.
  - rewrite IH; [reflexivity|]. intros Hin. apply H. right. exact Hin.
Qed.

Lemma split_char_app sep x rest :
  ~ In sep x -> split_char sep (x ++ sep :: rest) = x :: split_char sep rest.
Proof.
  induction x as [|c t IH]; intros H.
  - simpl. rewrite N.eqb_refl. reflexivity.
  - simpl. destruct (c =? sep)%N eqn:Hc.
    + apply N.eqb_eq in Hc. destruct H. left. exact Hc.
    + rewrite IH; [reflexivity|]. intros Hin. apply H. right. exact Hin.
Qed.

Lemma split_join sep parts :
  parts <> [] -> Forall (fun p => ~ In sep p) parts ->
  split_char sep (join [sep] parts) = parts.
Proof.
  induction parts as [|x r IH]; intros Hne Hf; [congruence|].
  apply Forall_cons in Hf as [Hx Hr].
  destruct r as [|y r]; [apply split_char_no_sep; exact Hx|].
  change (join [sep] (x :: y :: r)) with (x ++ sep :: join [sep] (y :: r)).
  rewrite split_char_app by exact Hx. f_equal.
  apply IH; [discriminate | exact Hr].
Qed.

Lemma canonical_no_newline line : canonical line -> ~ In 10%N line.
Proof.
  intros [_ Ho] Hin. pose proof (Ho _ Hin eq_refl) as H. discriminate H.
Qed.

Lemma clean_canonical_lines lines :
  Forall canonical lines ->
  List.filter truthy (List.map clean_text lines) = lines.
Proof.
  induction lines as [|x r IH]; intros Hf; [reflexivity|].
  apply Forall_cons in Hf as [Hx Hr]. cbn [List.map List.filter].
  rewrite (clean_text_fixed x Hx). destruct Hx as [(Hne & _) _].
  destruct x; [congruence|]. cbn [truthy]. rewrite IH by exact Hr. reflexivity.
Qed.

(** X4. The Normalizer changes nothing in text that is already
    normalized: when the text of the page is canonical lines joined by
    newlines, the lines it returns are these lines. *)
Theorem X4_page_lines_of_canonical_text
    (U : unicode_data) (E : environment) (html : pystr) (lines : list pystr) :
  Forall canonical lines ->
  soup_get_text E html = join [10%N] lines ->
  page_lines U E html = Ok lines.
Proof.
  intros Hc Ht. rewrite page_lines_total, Ht. f_equal.
  destruct lines as [|x r]; [reflexivity|].
  rewrite split_join.
  - apply clean_canonical_lines. exact Hc.
  - discriminate.
  - eapply Forall_impl; [exact Hc|]. intros l Hl. apply canonical_no_newline, Hl.
Qed.

Lemma canonical_example (s : pystr) :
  clean_text s = s -> s <> [] -> canonical s.
Proof. intros H Hne. rewrite <- H. apply clean_text_canonical. congruence. Qed.

Lemma X4_page_lines_of_canonical_text_witness :
  page_lines basic_latin (plain_env refused)
    (py "Jane Q. Public - March 4, 1977
Ohio")
  = Ok [py "Jane Q. Public - March 4, 1977"; py "Ohio"].
Proof.
  apply (X4_page_lines_of_canonical_text basic_latin (plain_env refused)
           (py "Jane Q. Public - March 4, 1977
Ohio") [py "Jane Q. Public - March 4, 1977"; py "Ohio"]).
  - repeat constructor; apply canonical_example;
      (vm_compute; reflexivity) || discriminate.
  - vm_compute. reflexivity.
Defined.

(* ===================================================================== *)
(** ** The shape of a token *)
(* ===================================================================== *)

Lemma token_of_chars U name c :
  In c (token_of U name) -> token_char c = true.
Proof.
  unfold token_of. intros H. apply strip_by_In in H.
  change (py "_") with [95%N] in H. unfold token_char.
  apply collapse_In in H as [->|[_ H]]; [reflexivity|].
  apply negb_false_iff in H. rewrite H. reflexivity.
Qed.

Lemma token_of_no_double U name : no_double (eqc "_") (token_of U name).
Proof.
  unfold token_of.
  destruct (strip_by_infix (eqc "_")
              (collapse (fun c => negb (is_lower_alnum c)) (py "_") false
                 (str_lower U name))) as (a & b & Hab).
  set (t := strip_by _ _) in *.
  assert (Hd : no_double (fun c => negb (is_lower_alnum c)) t).
  { apply (no_double_infix _ a t b). rewrite <- Hab.
    apply (collapse_no_double _ 95%N). reflexivity. }
  intros l1 x y l2 E Hx.
  assert (Hx' : negb (is_lower_alnum x) = true).
  { unfold eqc in Hx. apply N.eqb_eq in Hx. subst x. reflexivity. }
  pose proof (Hd l1 x y l2 E Hx') as Hy.
  destruct (eqc "_" y) eqn:Hy'; [|reflexivity].
  unfold eqc in Hy'. apply N.eqb_eq in Hy'. subst y. discriminate Hy.
Qed.

(** X5. The token made of a name has only the characters a-z, 0-9 and
    the underscore; it neither begins nor ends with an underscore, and it
    has no two underscores in a row. *)
Theorem X5_token_shape (U : unicode_data) (name : pystr) :
  exists token,
    name_token U name = Ok token
    /\ (forall c, In c token -> token_char c = true)
    /\ head token <> Some (ch "_")
    /\ last token <> Some (ch "_")
    /\ no_double (eqc "_") token.
Proof.
  exists (token_of U name). split; [apply name_token_total|].
  split; [apply token_of_chars|].
  split; [|split; [|apply token_of_no_double]].
  - intros H. apply strip_by_head in H. discriminate H.
  - intros H. apply strip_by_last in H. discriminate H.
Qed.

(* ===================================================================== *)
(** ** The Link Collector *)
(* ===================================================================== *)

Lemma WIKI_PAT_ignorecase : pat_ignorecase WIKI_PAT = true.
Proof. reflexivity. Qed.

Lemma WIKI_PAT_words :
  finite_literal (pat_regex WIKI_PAT) = true
  /\ words (pat_regex WIKI_PAT) = [py "wikipedia.org/wiki/"]
  /\ inside_model true (pat_regex WIKI_PAT) = true.
Proof. vm_compute. repeat split. Qed.

Lemma WIKI_PAT_search_spec U href :
  Pattern_search U WIKI_PAT href = true <-> wiki_like U href.
Proof.
  destruct WIKI_PAT_words as (Hfin & Hw & Hm).
  unfold Pattern_search. rewrite WIKI_PAT_ignorecase.
  assert (Hs : is_Some (search_from U true (pat_regex WIKI_PAT) None href)
               <-> wiki_like U href).
  { rewrite (search_from_spec U true _ None href Hm). unfold wiki_like. split.
    - intros (pre & w & t & -> & H).
      apply (sem_words U true _ Hfin) in H as (x & Hx & H).
      rewrite Hw in Hx. destruct Hx as [<-|[]]. eauto.
    - intros (pre & w & t & -> & H). exists pre, w, t.
      split; [reflexivity|]. apply (sem_words U true _ Hfin).
      eexists. split; [|exact H]. rewrite Hw. left. reflexivity. }
  rewrite <- Hs.
  destruct (search_from U true (pat_regex WIKI_PAT) None href) as [x|]; split.
  - eauto.
  - reflexivity.
  - discriminate.
  - intros [? ?]. discriminate.
Qed.

Lemma collect_links_filter U hrefs :
  collect_links U hrefs
  = List.filter (Pattern_search U WIKI_PAT)
      (List.map (fun a => or_else a []) hrefs).
Proof.
  induction hrefs as [|a r IH]; [reflexivity|].
  cbn [collect_links List.map List.filter]. rewrite IH.
  destruct (Pattern_search U WIKI_PAT (or_else a [])); reflexivity.
Qed.

Lemma wiki_like_length U href : wiki_like U href -> 19 <= length href.
Proof.
  intros (pre & w & post & -> & H). apply List.Forall2_length in H.
  rewrite !length_app, <- H. change (length (py "wikipedia.org/wiki/")) with 19.
  lia.
Qed.

(** X6. The Link Collector keeps exactly the hrefs in which
    "wikipedia.org/wiki/" occurs, up to case, the dot being a dot; an
    anchor without href, or with an empty one, gives no link. The links
    come in the order of the anchors, each as often as it occurs. *)
Theorem X6_collect_links (U : unicode_data) (hrefs : list (option pystr)) :
  collect_links U hrefs
  = List.filter (Pattern_search U WIKI_PAT)
      (List.map (fun a => or_else a []) hrefs)
  /\ (forall h, Pattern_search U WIKI_PAT h = true <-> wiki_like U h)
  /\ (forall h, In h (collect_links U hrefs)
                <-> In (Some h) hrefs /\ wiki_like U h)
  /\ sublist (collect_links U hrefs) (List.map (fun a => or_else a []) hrefs)
  /\ ~ In [] (collect_links U hrefs)
  /\ collect_links basic_latin
       [Some (py "https://en.wikipedia.org/wiki/Ohio"); None;
        Some (py "HTTP://EN.WIKIPEDIA.ORG/WIKI/Ohio");
        Some (py "https://en.wikipediaXorg/wiki/Ohio");
        Some (py "https://www.seeing-stars.com/"); Some [];
        Some (py "https://en.wikipedia.org/wiki/Ohio")]
     = [py "https://en.wikipedia.org/wiki/Ohio";
        py "HTTP://EN.WIKIPEDIA.ORG/WIKI/Ohio";
        py "https://en.wikipedia.org/wiki/Ohio"].
Proof.
  split; [apply collect_links_filter|].
  split; [apply WIKI_PAT_search_spec|].
  assert (Hin : forall h, In h (collect_links U hrefs)
                          <-> In (Some h) hrefs /\ wiki_like U h).
  { intros h. rewrite collect_links_filter, filter_In, WIKI_PAT_search_spec,
      in_map_iff. split.
    - intros [(a & Ha & Hin) Hw]. split; [|exact Hw].
      apply wiki_like_length in Hw.
      destruct a as [[|c t]|]; simpl in Ha; subst h; simpl in Hw; try lia.
      exact Hin.
    - intros [Hin Hw]. split; [|exact Hw]. exists (Some h). split; [|exact Hin].
      apply wiki_like_length in Hw. destruct h; [simpl in Hw; lia | reflexivity]. }
  split; [exact Hin|].
  split; [rewrite collect_links_filter; apply filter_sublist|].
  split.
  - intros H. apply Hin in H as [_ H]. apply wiki_like_length in H.
    simpl in H. lia.
  - vm_compute. reflexivity.
Qed.

(* ===================================================================== *)
(** ** When a fetch succeeds *)
(* ===================================================================== *)

Lemma decode_body_ok (E : environment) (r : Response) :
  exists text, decode_body E r = Ok text.
Proof.
  unfold decode_body. destruct (bytes_decode E _ (content r)) as [text|e].
  - exists text. reflexivity.
  - eexists. apply latin_1_never_fails.
Qed.

Lemma raise_for_status_cases (r : Response) :
  (raise_for_status r = Ok tt /\ ~ (400 <= status_code r < 600)%N)
  \/ ((exists msg, raise_for_status r = Raise (HTTPError msg))
      /\ (400 <= status_code r < 600)%N).
Proof.
  unfold raise_for_status.
  destruct ((400 <=? status_code r) && (status_code r <? 500))%N eqn:H4.
  - right. split; [eexists; reflexivity|].
    apply andb_true_iff in H4 as [H1 H2].
    apply N.leb_le in H1. apply N.ltb_lt in H2. lia.
  - destruct ((500 <=? status_code r) && (status_code r <? 600))%N eqn:H5.
    + right. split; [eexists; reflexivity|].
      apply andb_true_iff in H5 as [H1 H2].
      apply N.leb_le in H1. apply N.ltb_lt in H2. lia.
    + left. split; [reflexivity|].
      apply andb_false_iff in H4, H5.
      rewrite !N.leb_gt, !N.ltb_ge in *. lia.
Qed.

(** X7. [fetch_html] returns text exactly when [requests.get] returns a
    response whose status is not 4xx or 5xx, and the text is then the
    decoded body; it raises exactly when the request raises or the status
    is 4xx or 5xx, with the exception of the request or an [HTTPError].
    Decoding is never the cause of a failure. *)
Theorem X7_fetch_html_outcome (E : environment) (u : pystr) :
  (forall text,
     fetch_html E u = Ok text
     <-> exists r, requests_get E u = Ok r
                   /\ ~ (400 <= status_code r < 600)%N
                   /\ decode_body E r = Ok text)
  /\ (forall e,
        fetch_html E u = Raise e
        <-> requests_get E u = Raise e
            \/ exists r, requests_get E u = Ok r
                         /\ (400 <= status_code r < 600)%N
                         /\ raise_for_status r = Raise e
                         /\ exists msg, e = HTTPError msg).
Proof.
  unfold fetch_html.
  destruct (requests_get E u) as [r|e0]; cbn [mbind result_bind].
  - destruct (raise_for_status_cases r) as [[Hr Hs] | [[msg Hr] Hs]];
      rewrite Hr; cbn [mbind result_bind].
    + split.
      * intros text. split.
        -- intros H. exists r. auto.
        -- intros (r' & [= <-] & _ & H). exact H.
      * intros e. split.
        -- intros H. destruct (decode_body_ok E r) as [t Ht]. congruence.
        -- intros [H | (r' & [= <-] & Hs' & _)]; [discriminate | contradiction].
    + split.
      * intros text. split; [discriminate|].
        intros (r' & [= <-] & Hs' & _). contradiction.
      * intros e. split.
        -- intros [= <-]. right. exists r. eauto 6.
        -- intros [H | (r' & [= <-] & _ & H & _)]; [discriminate|].
           rewrite Hr in H. injection H as <-. reflexivity.
  - split.
    + intros text. split; [discriminate|].
      intros (r & H & _). discriminate.
    + intros e. split.
      * intros [= <-]. left. reflexivity.
      * intros [[= <-] | (r & H & _)]; [reflexivity | discriminate].
Qed.

(* ===================================================================== *)
(** ** How a run ends *)
(* ===================================================================== *)

Lemma source_loop_completes U E urls :
  pages_without_entries U E urls ->
  exists blocks,
    Forall2 (is_block U E) urls blocks
    /\ forall out n,
         source_loop U E urls (out, n) = Ok (out ++ concat blocks, n).
Proof.
  induction urls as [|u urls IH]; intros Hp.
  - exists []. split; [constructor|]. intros out n. simpl.
    rewrite app_nil_r. reflexivity.
  - destruct IH as (blocks & Hb & Hl).
    { intros v html Hv. apply Hp. right. exact Hv. }
    destruct (fetch_html E u) as [html|e] eqn:Hf.
    + assert (Hk := Hp u html (or_introl eq_refl) Hf).
      exists (debug_block u (lines_of E html) :: blocks). split.
      * constructor; [|exact Hb]. right. exists html. auto.
      * intros out n. cbn [source_loop].
        rewrite (source_step_debug U E u html out n Hf Hk).
        cbn [mbind result_bind concat]. rewrite Hl, app_assoc. reflexivity.
    + exists (error_block u e :: blocks). split.
      * constructor; [|exact Hb]. left. exists e. auto.
      * intros out n. cbn [source_loop].
        rewrite (source_step_error U E u e out n Hf).
        cbn [mbind result_bind concat]. rewrite Hl, app_assoc. reflexivity.
Qed.

Lemma source_loop_outcome U E urls st :
  match source_loop U E urls st with
  | Ok _ => pages_without_entries U E urls
  | Raise e =>
      e = re_error (py "unterminated character set") 12
      /\ exists u html, In u urls /\ fetch_html E u = Ok html
                        /\ keep_lines U (lines_of E html) <> []
  end.
Proof.
  revert st. induction urls as [|u urls IH]; intros [out n].
  - simpl. intros v html [].
  - cbn [source_loop]. destruct (fetch_html E u) as [html|e] eqn:Hf.
    + destruct (keep_lines U (lines_of E html)) as [|ln kept] eqn:Hk.
      * rewrite (source_step_debug U E u html out n Hf Hk).
        cbn [mbind result_bind]. specialize (IH (out ++ debug_block u (lines_of E html), n)).
        destruct (source_loop U E urls _) as [st'|e'].
        -- intros v html' [<-|Hv] Hf'; [congruence | eapply IH; eauto].
        -- destruct IH as (He & v & html' & Hv & Hf' & Hk').
           split; [exact He|]. exists v, html'. split; [right; exact Hv | auto].
      * rewrite (source_step_entries U E u html out n Hf) by congruence.
        cbn [mbind result_bind]. split; [reflexivity|].
        exists u, html. split; [left; reflexivity|]. split; [exact Hf | congruence].
    + rewrite (source_step_error U E u e out n Hf). cbn [mbind result_bind].
      specialize (IH (out ++ error_block u e, n)).
      destruct (source_loop U E urls _) as [st'|e'].
      * intros v html' [<-|Hv] Hf'; [congruence | eapply IH; eauto].
      * destruct IH as (He & v & html' & Hv & Hf' & Hk').
        split; [exact He|]. exists v, html'. split; [right; exact Hv | auto].
Qed.


Lemma error_block_no_entry u e :
  count_prefixed (py "- Name:") (error_block u e) = 0.
Proof. vm_compute. reflexivity. Qed.

Lemma debug_block_no_entry u lines :
  count_prefixed (py "- Name:") (debug_block u lines) = 0.
Proof.
  unfold debug_block. rewrite !count_prefixed_app.
  rewrite count_prefixed_raw_none by (intros; vm_compute; reflexivity).
  vm_compute. reflexivity.
Qed.

Lemma blocks_no_entry U E urls blocks :
  Forall2 (is_block U E) urls blocks ->
  count_prefixed (py "- Name:") (concat blocks) = 0.
Proof.
  induction 1 as [|u b urls blocks Hb _ IH]; [reflexivity|].
  cbn [concat]. rewrite count_prefixed_app, IH.
  destruct Hb as [(e & _ & ->) | (html & _ & _ & ->)].
  - rewrite error_block_no_entry. reflexivity.
  - rewrite debug_block_no_entry. reflexivity.
Qed.

Lemma header_no_entry E : count_prefixed (py "- Name:") (header E) = 0.
Proof. vm_compute. reflexivity. Qed.

(** X9. The report of a run that ends normally is the header followed
    by one block for each of the URLS, in their order, each block the
    [ERROR] block or the [DEBUG] block of its source; it has no entry, and
    the completion line says that 0 entry lines were written. The file
    system gets this report under the output name, whatever was there. *)
Theorem X9_completed_report
    (U : unicode_data) (E : environment) (w w' : world) :
  main U E w = (w', Ok tt) ->
  exists blocks,
    Forall2 (is_block U E) URLS blocks
    /\ length blocks = 7
    /\ files w' OUTFILE = Some (join [10%N] (header E ++ concat blocks))
    /\ stdout w'
       = stdout w ++ [py "Done. Wrote 0 entry lines to seeing-stars-summaries.txt"]
    /\ count_prefixed (py "- Name:") (header E ++ concat blocks) = 0.
Proof.
  unfold main. intros Hm.
  pose proof (source_loop_outcome U E URLS (header E, 0)) as Ho.
  destruct (source_loop U E URLS (header E, 0)) as [[out n]|e0] eqn:Hl;
    [|discriminate].
  destruct (source_loop_completes U E URLS Ho) as (blocks & Hb & Hs).
  rewrite Hs in Hl. injection Hl as <- <-. injection Hm as <-.
  exists blocks. split; [exact Hb|].
  split; [apply List.Forall2_length in Hb; rewrite <- Hb; reflexivity|].
  split; [reflexivity|]. split; [vm_compute; reflexivity|].
  rewrite count_prefixed_app, header_no_entry.
  rewrite (blocks_no_entry U E URLS blocks Hb). reflexivity.
Qed.

Lemma X9_completed_report_witness :
  exists blocks,
    Forall2 (is_block basic_latin (plain_env refused)) URLS blocks
    /\ length blocks = 7
    /\ files (fst (main basic_latin (plain_env refused) old_report_world)) OUTFILE
       = Some (join [10%N] (header (plain_env refused) ++ concat blocks)).
Proof.
  destruct (X9_completed_report basic_latin (plain_env refused) old_report_world
              (fst (main basic_latin (plain_env refused) old_report_world)))
    as (blocks & H1 & H2 & H3 & _).
  - vm_compute. reflexivity.
  - exists blocks. split; [exact H1|]. split; [exact H2 | exact H3].
Defined.

(** X10. The loop over the sources only appends to the buffer: when it
    returns, the buffer it was given is a prefix of the result, what it
    appended does not depend on what the buffer held or on the counter, the
    appended part has no entry and the counter is the one it was given. *)
Theorem X10_source_loop_appends
    (U : unicode_data) (E : environment) (urls : list pystr)
    (out out' : list pystr) (n n' : nat) :
  source_loop U E urls (out, n) = Ok (out', n') ->
  n' = n
  /\ exists body,
       out' = out ++ body
       /\ count_prefixed (py "- Name:") body = 0
       /\ forall out2 n2,
            source_loop U E urls (out2, n2) = Ok (out2 ++ body, n2).
Proof.
  intros Hl.
  pose proof (source_loop_outcome U E urls (out, n)) as Ho. rewrite Hl in Ho.
  destruct (source_loop_completes U E urls Ho) as (blocks & Hb & Hs).
  rewrite Hs in Hl. injection Hl as <- <-. split; [reflexivity|].
  exists (concat blocks). split; [reflexivity|].
  split; [apply (blocks_no_entry U E urls blocks Hb) | exact Hs].
Qed.

Lemma X10_source_loop_appends_witness :
  exists body,
    [py "kept"] ++ error_block (py "https://a/") (RequestException (py "Connection refused"))
                ++ debug_block (py "https://b/") [py "Nothing here"]
    = [py "kept"] ++ body
    /\ forall out2 n2,
         source_loop basic_latin
           (plain_env (fun u => if pystr_eqb u (py "https://a/") then refused u
                                else respond 200 (py "OK") " Nothing   here " u))
           [py "https://a/"; py "https://b/"] (out2, n2)
         = Ok (out2 ++ body, n2).
Proof.
  destruct (X10_source_loop_appends basic_latin
              (plain_env (fun u => if pystr_eqb u (py "https://a/") then refused u
                                   else respond 200 (py "OK") " Nothing   here " u))
              [py "https://a/"; py "https://b/"] [py "kept"]
              ([py "kept"]
               ++ error_block (py "https://a/")
                    (RequestException (py "Connection refused"))
               ++ debug_block (py "https://b/") [py "Nothing here"]) 3 3)
    as (_ & body & H1 & _ & H2).
  - vm_compute. reflexivity.
  - exists body. split; [exact H1 | exact H2].
Defined.

(* ===================================================================== *)
(** ** The single write *)
(* ===================================================================== *)




(* ===================================================================== *)
(** ** The token and letters outside ASCII *)
(* ===================================================================== *)

(** C6 as stated fails on a name with a letter outside ASCII. The
    letter U+00E9 of "José Ferrer" is alphanumeric, so the token in the
    words of the claim is "josé_ferrer", which the lower case of the link
    has: the claim attaches the link. The pattern of the source takes the
    letter for a separator, the token is "jos_ferrer", no link has it, and
    nothing is attached. *)
Lemma C6_counterexample_non_ascii_letter :
  isalnum latin_1_data 233 = true
  /\ token_by_isalnum latin_1_data (py "José Ferrer") = py "josé_ferrer"
  /\ name_token latin_1_data (py "José Ferrer") = Ok (py "jos_ferrer")
  /\ has_token latin_1_data (py "josé_ferrer")
       (py "https://en.wikipedia.org/wiki/José_Ferrer")
  /\ wiki_guess latin_1_data (py "josé_ferrer")
       [py "https://en.wikipedia.org/wiki/José_Ferrer"]
     = py "https://en.wikipedia.org/wiki/José_Ferrer"
  /\ wiki_guess latin_1_data (py "jos_ferrer")
       [py "https://en.wikipedia.org/wiki/José_Ferrer"]
     = [].
Proof.
  split; [reflexivity|]. split; [vm_compute; reflexivity|].
  split; [vm_compute; reflexivity|].
  split; [apply has_token_test; vm_compute; reflexivity|].
  split; vm_compute; reflexivity.
Qed.
